(** * FocuSD backend: the attention loop of [PythonEyeDetection.py]

    A shallow embedding of [run_detection] and of the Arduino helpers of
    [src/PythonEyeDetection.py], and the properties of the debounced
    presence / focus engine, its time metrics, its interval log and its
    one-character actuator protocol.

    Modelling choices.
    - Wall-clock readings and accumulated times are Python floats; they are
      modelled by exact rationals [Q], so every arithmetic fact below is a
      fact about the exact values the floats approximate.
    - The image pipeline (camera, MediaPipe, eye-aspect-ratio and gaze
      geometry) is reduced to what the loop consumes: whether
      [results.multi_face_landmarks] is non-empty and, when it is, the two
      booleans [eyes_open] and [looking_at_screen].
    - The serial port either accepts a write or raises; which of the two
      happens on an iteration is an input of that iteration.
    - Python exceptions are values of an error monad.

    Beyond the loop body the file covers the two threshold tests of the
    classifier, the status indicator, the way the loop is left, the
    [finally] block, and the one-image classifier of
    [Backend/model/PythonEyeDetection.py]. *)

From Stdlib Require Import String.
From Stdlib Require Import QArith Lqa Lia List Bool Ascii Arith.
From Stdlib Require Import Qabs.
Import ListNotations.

Local Open Scope Q_scope.

(* ===================================================================== *)
(** * Exceptions *)
(* ===================================================================== *)

Inductive exn : Type :=
  | ZeroDivisionError
  | SerialException
  | NameError.

Inductive result (A : Type) : Type :=
  | Ok (a : A)
  | Raise (e : exn).

Arguments Ok {A} a.
Arguments Raise {A} e.

Definition bind {A B : Type} (m : result A) (k : A -> result B) : result B :=
  match m with
  | Ok a => k a
  | Raise e => Raise e
  end.

Notation "x <- m ;; k" := (bind m (fun x => k))
  (at level 61, m at next level, right associativity).

(** Python's [a / b] on floats. *)
Definition truediv (a b : Q) : result Q :=
  if Qeq_bool b 0 then Raise ZeroDivisionError else Ok (a / b).

(** Python's [a > b] on floats. *)
Definition Qgt_bool (a b : Q) : bool := negb (Qle_bool a b).

(* ===================================================================== *)
(** * The Arduino link (module globals, lines 26-57) *)
(* ===================================================================== *)

(** An open serial port, seen through the bytes the device has received. *)
Record Serial : Type := mkSerial { written : list ascii }.

(** The lines the Arduino helpers print. *)
Inductive line : Type :=
  | TryingToConnect
  | ConnectedTo
  | FailedToConnect
  | Sent (state : ascii)
  | ErrorSending (state : ascii).

Record Globals : Type := mkGlobals {
  arduino : option Serial;
  arduino_connected : bool;
  stdout : list line
}.

(** [arduino_connected = False], [arduino = None]. *)
Definition module_globals : Globals :=
  {| arduino := None; arduino_connected := false; stdout := [] |}.

(** [Serial(port, 9600)]: opening the port succeeds or raises. *)
Definition Serial_open (port_ok : bool) : result Serial :=
  if port_ok then Ok (mkSerial []) else Raise SerialException.

(** [arduino.write(data)]: the byte reaches the device or the call raises. *)
Definition Serial_write (write_ok : bool) (ser : Serial) (data : ascii)
  : result Serial :=
  if write_ok then Ok (mkSerial (written ser ++ [data]))
  else Raise SerialException.

(** [connect_to_arduino()], lines 30-46. *)
Definition connect_to_arduino (port_ok : bool) (g : Globals) : Globals * bool :=
  let out := stdout g ++ [TryingToConnect] in
  match Serial_open port_ok with
  | Ok ser =>
      ({| arduino := Some ser;
          arduino_connected := true;
          stdout := out ++ [ConnectedTo] |}, true)
  | Raise _ =>
      ({| arduino := arduino g;
          arduino_connected := false;
          stdout := out ++ [FailedToConnect] |}, false)
  end.

(** [send_to_arduino(state)], lines 50-57. *)
Definition send_to_arduino (write_ok : bool) (state : ascii) (g : Globals)
  : Globals :=
  match arduino g with
  | Some ser =>
      if arduino_connected g then
        match Serial_write write_ok ser state with
        | Ok ser' =>
            {| arduino := Some ser';
               arduino_connected := arduino_connected g;
               stdout := stdout g ++ [Sent state] |}
        | Raise _ =>
            {| arduino := arduino g;
               arduino_connected := arduino_connected g;
               stdout := stdout g ++ [ErrorSending state] |}
        end
      else g
  | None => g
  end.

(* ===================================================================== *)
(** * The locals of [run_detection] (lines 187-212) *)
(* ===================================================================== *)

(** One entry of [absence_events] / [distraction_events].  The script keeps
    the ['%H:%M:%S'] rendering of the two timestamps; the model keeps the
    timestamps that are rendered. *)
Record Event : Type := mkEvent {
  start_ts : Q;
  end_ts : Q;
  duration : Q
}.

(** [presence_score], [focus_score], [overall_score]: unbound until the
    first iteration reaches line 345. *)
Record Scores : Type := mkScores {
  presence_score : Q;
  focus_score : Q;
  overall_score : Q
}.

Record Locals : Type := mkLocals {
  start_time : Q;
  total_time : Q;
  present_time : Q;
  focused_time : Q;
  presence_counter : nat;
  absence_counter : nat;
  focus_counter : nat;
  distraction_counter : nat;
  is_present : bool;
  is_focused : bool;
  last_arduino_state : option ascii;
  absence_events : list Event;
  distraction_events : list Event;
  current_absence : option Q;
  current_distraction : option Q;
  scores : option Scores
}.

(** [presence_threshold] and [focus_threshold] (lines 200-201). *)
Record Thresholds : Type := mkThresholds {
  presence_threshold : nat;
  focus_threshold : nat
}.

(** The values the script assigns. *)
Definition script_thresholds : Thresholds :=
  {| presence_threshold := 10; focus_threshold := 10 |}.

(** Lines 188-212; [now] is the reading of [time.time()] on line 188. *)
Definition initial_locals (now : Q) : Locals :=
  {| start_time := now;
     total_time := 0;
     present_time := 0;
     focused_time := 0;
     presence_counter := 0;
     absence_counter := 0;
     focus_counter := 0;
     distraction_counter := 0;
     is_present := false;
     is_focused := false;
     last_arduino_state := None;
     absence_events := [];
     distraction_events := [];
     current_absence := None;
     current_distraction := None;
     scores := None |}.

(* ===================================================================== *)
(** * One iteration of the loop (lines 217-418) *)
(* ===================================================================== *)

(** What is left of the landmarks once lines 263-273 have run. *)
Record Face : Type := mkFace {
  eyes_open : bool;
  looking_at_screen : bool
}.

(** What the environment supplies on one iteration: the clock reading of
    line 225, the MediaPipe result of line 234, and whether a serial write
    issued on this iteration goes through. *)
Record Frame : Type := mkFrame {
  current_time : Q;
  multi_face_landmarks : option Face;
  write_ok : bool
}.

(** Lines 236-276: [(face_detected, focus_detected)]. *)
Definition detect (results : option Face) : bool * bool :=
  match results with
  | Some face => (true, eyes_open face && looking_at_screen face)
  | None => (false, false)
  end.

Definition face_detected (fr : Frame) : bool :=
  fst (detect (multi_face_landmarks fr)).

Definition focus_detected (fr : Frame) : bool :=
  snd (detect (multi_face_landmarks fr)).

(** Lines 294-313: the new values of [presence_counter], [absence_counter],
    [is_present], [absence_events] and [current_absence]. *)
Definition presence_state_machine (th : Thresholds) (face : bool) (now : Q)
  (l : Locals) : nat * nat * bool * list Event * option Q :=
  if face then
    let presence_counter := S (presence_counter l) in
    let absence_counter := O in
    if (presence_threshold th <=? presence_counter)%nat && negb (is_present l)
    then
      match current_absence l with
      | Some since =>
          let absence_duration := now - since in
          (presence_counter, absence_counter, true,
           absence_events l ++ [mkEvent since now absence_duration], None)
      | None =>
          (presence_counter, absence_counter, true,
           absence_events l, current_absence l)
      end
    else
      (presence_counter, absence_counter, is_present l,
       absence_events l, current_absence l)
  else
    let absence_counter := S (absence_counter l) in
    let presence_counter := O in
    if (presence_threshold th <=? absence_counter)%nat && is_present l
    then
      (presence_counter, absence_counter, false,
       absence_events l, Some now)
    else
      (presence_counter, absence_counter, is_present l,
       absence_events l, current_absence l).

(** Lines 319-338: the new values of [focus_counter], [distraction_counter],
    [is_focused], [distraction_events] and [current_distraction]. *)
Definition focus_state_machine (th : Thresholds) (focus : bool) (now : Q)
  (l : Locals) : nat * nat * bool * list Event * option Q :=
  if focus then
    let focus_counter := S (focus_counter l) in
    let distraction_counter := O in
    if (focus_threshold th <=? focus_counter)%nat && negb (is_focused l)
    then
      match current_distraction l with
      | Some since =>
          let distraction_duration := now - since in
          (focus_counter, distraction_counter, true,
           distraction_events l ++ [mkEvent since now distraction_duration],
           None)
      | None =>
          (focus_counter, distraction_counter, true,
           distraction_events l, current_distraction l)
      end
    else
      (focus_counter, distraction_counter, is_focused l,
       distraction_events l, current_distraction l)
  else
    let distraction_counter := S (distraction_counter l) in
    let focus_counter := O in
    if (focus_threshold th <=? distraction_counter)%nat && is_focused l
    then
      (focus_counter, distraction_counter, false,
       distraction_events l, Some now)
    else
      (focus_counter, distraction_counter, is_focused l,
       distraction_events l, current_distraction l).

(** Line 345 / 346 / 347: [(num / den) * 100 if den > 0 else 0]. *)
Definition percentage (num den : Q) : result Q :=
  if Qgt_bool den 0 then
    ratio <- truediv num den ;;
    Ok (ratio * 100)
  else Ok 0.

(** Lines 344-347. *)
Definition compute_scores (total_time present_time focused_time : Q)
  : result Scores :=
  presence_score <- percentage present_time total_time ;;
  focus_score <- percentage focused_time present_time ;;
  overall_score <- percentage focused_time total_time ;;
  Ok (mkScores presence_score focus_score overall_score).

(** Lines 377-383. *)
Definition arduino_state (is_present is_focused : bool) : ascii :=
  if negb is_present then "A"%char
  else if is_focused then "F"%char
  else "D"%char.

(** Line 385: [current_arduino_state != last_arduino_state]. *)
Definition differs (current : ascii) (last : option ascii) : bool :=
  match last with
  | Some c => negb (Ascii.eqb current c)
  | None => true
  end.

(** The body of the [while] loop for a frame that was read successfully. *)
Definition loop_body (th : Thresholds) (fr : Frame) (st : Globals * Locals)
  : result (Globals * Locals) :=
  let (g, l) := st in
  (* lines 224-228 *)
  let now := current_time fr in
  let time_diff := now - start_time l in
  let total_time := total_time l + time_diff in
  (* lines 236-276 *)
  let '(face, focus) := detect (multi_face_landmarks fr) in
  (* lines 294-313 *)
  let '(presence_counter, absence_counter, is_present,
        absence_events, current_absence) :=
    presence_state_machine th face now l in
  (* lines 315-317 *)
  let present_time :=
    if is_present then present_time l + time_diff else present_time l in
  (* lines 319-338 *)
  let '(focus_counter, distraction_counter, is_focused,
        distraction_events, current_distraction) :=
    focus_state_machine th focus now l in
  (* lines 340-342 *)
  let focused_time :=
    if is_focused then focused_time l + time_diff else focused_time l in
  (* lines 344-347 *)
  sc <- compute_scores total_time present_time focused_time ;;
  (* lines 376-387 *)
  let current_arduino_state := arduino_state is_present is_focused in
  let g' :=
    if differs current_arduino_state (last_arduino_state l)
    then send_to_arduino (write_ok fr) current_arduino_state g
    else g in
  let last_arduino_state :=
    if differs current_arduino_state (last_arduino_state l)
    then Some current_arduino_state
    else last_arduino_state l in
  Ok (g',
      {| start_time := now;
         total_time := total_time;
         present_time := present_time;
         focused_time := focused_time;
         presence_counter := presence_counter;
         absence_counter := absence_counter;
         focus_counter := focus_counter;
         distraction_counter := distraction_counter;
         is_present := is_present;
         is_focused := is_focused;
         last_arduino_state := last_arduino_state;
         absence_events := absence_events;
         distraction_events := distraction_events;
         current_absence := current_absence;
         current_distraction := current_distraction;
         scores := Some sc |}).

(** The loop over the frames read before the loop is left. *)
Fixpoint loop (th : Thresholds) (frames : list Frame) (st : Globals * Locals)
  : result (Globals * Locals) :=
  match frames with
  | [] => Ok st
  | fr :: rest =>
      st' <- loop_body th fr st ;;
      loop th rest st'
  end.

(** [run_detection] up to the [finally] block: [t0] is the clock reading of
    line 188, [g] the module globals left by the connection attempt. *)
Definition run_detection (th : Thresholds) (t0 : Q) (g : Globals)
  (frames : list Frame) : result (Globals * Locals) :=
  loop th frames (g, initial_locals t0).

(** The session summary printed by lines 431-448. *)
Record Summary : Type := mkSummary {
  summary_total_time : Q;
  summary_present_time : Q;
  summary_presence_score : Q;
  summary_focused_time : Q;
  summary_focus_score : Q;
  summary_overall_score : Q;
  summary_absence_count : nat;
  summary_distraction_count : nat;
  summary_absence_events : list Event;
  summary_distraction_events : list Event
}.

(** Lines 431-448; the scores are read from the loop's locals. *)
Definition session_summary (l : Locals) : result Summary :=
  match scores l with
  | None => Raise NameError
  | Some sc =>
      Ok {| summary_total_time := total_time l;
            summary_present_time := present_time l;
            summary_presence_score := presence_score sc;
            summary_focused_time := focused_time l;
            summary_focus_score := focus_score sc;
            summary_overall_score := overall_score sc;
            summary_absence_count := length (absence_events l);
            summary_distraction_count := length (distraction_events l);
            summary_absence_events := absence_events l;
            summary_distraction_events := distraction_events l |}
  end.

(* ===================================================================== *)
(** * Vocabulary of the properties *)
(* ===================================================================== *)

(** Clock readings that never go back: [t] is the previous reading. *)
Fixpoint nondecreasing_from (t : Q) (frames : list Frame) : Prop :=
  match frames with
  | [] => True
  | fr :: rest => t <= current_time fr /\ nondecreasing_from (current_time fr) rest
  end.

(** Clock readings that advance from one frame to the next. *)
Fixpoint increasing_from (t : Q) (frames : list Frame) : Prop :=
  match frames with
  | [] => True
  | fr :: rest => t < current_time fr /\ increasing_from (current_time fr) rest
  end.

(** One debounced axis as the script holds it: the stable value, the
    counter of consecutive raw [True] frames and the counter of consecutive
    raw [False] frames. *)
Record Axis : Type := mkAxis {
  stable : bool;
  run_true : nat;
  run_false : nat
}.

Definition presence_axis (l : Locals) : Axis :=
  mkAxis (is_present l) (presence_counter l) (absence_counter l).

Definition focus_axis (l : Locals) : Axis :=
  mkAxis (is_focused l) (focus_counter l) (distraction_counter l).

(** The counters and the flag of lines 295-313 (and of lines 320-338), with
    the interval bookkeeping left out. *)
Definition debounce (threshold : nat) (raw : bool) (a : Axis) : Axis :=
  if raw then
    if (threshold <=? S (run_true a))%nat && negb (stable a)
    then mkAxis true (S (run_true a)) O
    else mkAxis (stable a) (S (run_true a)) O
  else
    if (threshold <=? S (run_false a))%nat && stable a
    then mkAxis false O (S (run_false a))
    else mkAxis (stable a) O (S (run_false a)).

Definition debounce_all (threshold : nat) (raws : list bool) (a : Axis) : Axis :=
  fold_left (fun a raw => debounce threshold raw a) raws a.

(** The counter that leads out of the current stable value. *)
Definition progress (a : Axis) : nat :=
  if stable a then run_false a else run_true a.

Definition presence_progress (l : Locals) : nat := progress (presence_axis l).
Definition focus_progress (l : Locals) : nat := progress (focus_axis l).

(** The last [k] elements of a list. *)
Definition lastn {A : Type} (k : nat) (l : list A) : list A :=
  skipn (length l - k) l.

(** The debounced state of the specification (section 4.1), written from
    its words: a single [match_counter] next to the [stable_state]. *)
Record DebouncedBinaryState : Type := mkDebounced {
  match_counter : nat;
  stable_state : bool
}.

(** Section 4.1 of the specification: if [raw] is the direction that leaves
    the stable state, count it, otherwise start again from 0; on reaching
    the threshold flip, reset and report the change. *)
Definition spec_update (threshold : nat) (raw : bool) (d : DebouncedBinaryState)
  : bool * DebouncedBinaryState :=
  let counter :=
    if Bool.eqb raw (negb (stable_state d)) then S (match_counter d) else O in
  if (counter =? threshold)%nat
  then (true, mkDebounced O (negb (stable_state d)))
  else (false, mkDebounced counter (stable_state d)).

(** How one axis of the script is read as a state of the specification. *)
Definition abstraction (a : Axis) : DebouncedBinaryState :=
  mkDebounced (progress a) (stable a).

(** How the two axes hang together when both use the threshold [T]: the
    focus run is no longer than the presence run, the absence run no longer
    than the distraction run, a run of [T] has already been acted upon, and
    focus is only held while presence is. *)
Definition coupled (T : nat) (p f : Axis) : Prop :=
  (run_true f <= run_true p)%nat /\
  (run_false p <= run_false f)%nat /\
  ((T <= run_true p)%nat -> stable p = true) /\
  ((T <= run_false f)%nat -> stable f = false) /\
  (stable f = true -> stable p = true).

(** A closed interval whose ends are related by [R] and whose duration is
    the difference of its ends. *)
Definition closed_event (R : Q -> Q -> Prop) (e : Event) : Prop :=
  R (start_ts e) (end_ts e) /\ duration e = end_ts e - start_ts e.

(** The invariant of the two interval logs: a pending interval was opened
    no later than the last clock reading, and every logged interval is a
    [closed_event]. *)
Definition log_invariant (R : Q -> Q -> Prop) (l : Locals) : Prop :=
  (forall since, current_absence l = Some since -> since <= start_time l) /\
  (forall since, current_distraction l = Some since -> since <= start_time l) /\
  Forall (closed_event R) (absence_events l) /\
  Forall (closed_event R) (distraction_events l).

(** The command codes the helper tried to write, oldest first. *)
Fixpoint attempts (out : list line) : list ascii :=
  match out with
  | [] => []
  | Sent c :: rest => c :: attempts rest
  | ErrorSending c :: rest => c :: attempts rest
  | _ :: rest => attempts rest
  end.

(** No two neighbours of the list are equal. *)
Fixpoint no_repeat (l : list ascii) : Prop :=
  match l with
  | a :: ((b :: _) as rest) => a <> b /\ no_repeat rest
  | _ => True
  end.

(** The test of line 52: [arduino and arduino_connected]. *)
Definition link_up (g : Globals) : bool :=
  match arduino g with
  | Some _ => arduino_connected g
  | None => false
  end.

(** The bytes the device has received. *)
Definition received (g : Globals) : list ascii :=
  match arduino g with
  | Some ser => written ser
  | None => []
  end.

(* ===================================================================== *)
(** * Concrete sessions *)
(* ===================================================================== *)

(** A frame with an attentive face, a frame with a face looking away, and a
    frame without a face. *)
Definition focused_frame (t : Q) : Frame := mkFrame t (Some (mkFace true true)) true.
Definition away_frame (t : Q) : Frame := mkFrame t (Some (mkFace true false)) true.
Definition empty_frame (t : Q) : Frame := mkFrame t None true.

(** The globals after a successful and after a failed connection attempt. *)
Definition globals_connected : Globals := fst (connect_to_arduino true module_globals).
Definition globals_disconnected : Globals := fst (connect_to_arduino false module_globals).

(** Scenario A: nine frames with a face, one without, ten with a face. *)
Definition scenario_A_raws : list bool :=
  repeat true 9 ++ [false] ++ repeat true 10.

(** Frames one second apart that carry the given raw presence values: an
    attentive face for [true], no face for [false]. *)
Fixpoint frames_from (t : Q) (raws : list bool) : list Frame :=
  match raws with
  | [] => []
  | raw :: rest =>
      (if raw then focused_frame t else empty_frame t) :: frames_from (t + 1) rest
  end.

Definition scenario_A_frames : list Frame := frames_from 1 scenario_A_raws.

(** A clock that stands still: ten attentive frames at reading 1, then ten
    frames without a face and ten attentive frames, all at reading 2. *)
Definition stalled_clock_frames : list Frame :=
  map focused_frame (repeat 1 10)
  ++ map empty_frame (repeat 2 10)
  ++ map focused_frame (repeat 2 10).

(** The same thirty frames read at 1, 2, ..., 30. *)
Definition running_clock_frames : list Frame :=
  frames_from 1 (repeat true 10 ++ repeat false 10 ++ repeat true 10).

(** A frame without a face on which the serial write raises. *)
Definition unplugged_frame (t : Q) : Frame := mkFrame t None false.

(* ===================================================================== *)
(** * The two threshold tests of the classifier (lines 154-171) *)
(* ===================================================================== *)

(** Python's [a < b] on floats. *)
Definition Qlt_bool (a b : Q) : bool := negb (Qle_bool b a).

(** [is_looking_at_screen(gaze_x, gaze_y)], lines 154-163. *)
Definition is_looking_at_screen (gaze_x gaze_y : Q) : bool :=
  let x_threshold := 0.14 in
  let y_threshold := 0.14 in
  Qlt_bool (Qabs gaze_x) x_threshold && Qlt_bool (Qabs gaze_y) y_threshold.

(** [are_eyes_open(left_ear, right_ear)], lines 166-171. *)
Definition are_eyes_open (left_ear right_ear : Q) : bool :=
  let ear_threshold := 0.2 in
  Qgt_bool left_ear ear_threshold && Qgt_bool right_ear ear_threshold.

(** Lines 272-273, once the two eye aspect ratios and the gaze have been
    measured on the landmarks. *)
Definition measured_face (left_ear right_ear gaze_x gaze_y : Q) : Face :=
  {| eyes_open := are_eyes_open left_ear right_ear;
     looking_at_screen := is_looking_at_screen gaze_x gaze_y |}.

(* ===================================================================== *)
(** * The status indicator (lines 389-402) *)
(* ===================================================================== *)

(** The colour (blue, green, red) and the label drawn in the corner. *)
Definition status_indicator (is_present is_focused : bool)
  : (nat * nat * nat) * string :=
  if negb is_present then ((0, 0, 255)%nat, "ABSENT"%string)
  else if is_focused then ((0, 255, 0)%nat, "FOCUSED"%string)
  else ((0, 165, 255)%nat, "DISTRACTED"%string).

(* ===================================================================== *)
(** * Leaving the loop, and the [finally] block (lines 180-185, 216-448) *)
(* ===================================================================== *)

(** What [cap.read()] and [cv2.waitKey(5)] give on one iteration: a frame,
    with whether the key read at the end of the iteration is [q], or no
    frame. *)
Inductive Capture : Type :=
  | Grabbed (fr : Frame) (key_q : bool)
  | GrabFailed.

(** The [while] loop over what the camera delivers: a failed read leaves
    the loop before anything is updated (lines 219-222), the key [q] leaves
    it once the iteration is complete (lines 416-418).  The list holds what
    was delivered up to the point where the session is looked at. *)
Fixpoint capture_loop (th : Thresholds) (captures : list Capture)
  (st : Globals * Locals) : result (Globals * Locals) :=
  match captures with
  | [] => Ok st
  | GrabFailed :: _ => Ok st
  | Grabbed fr key_q :: rest =>
      st' <- loop_body th fr st ;;
      if key_q then Ok st' else capture_loop th rest st'
  end.



(* ===================================================================== *)
(** * Vocabulary of the further properties *)
(* ===================================================================== *)

(** One axis with its interval log: the two counters, the stable value, the
    logged events and the pending slot. *)
Record Track : Type := mkTrack {
  track_up : nat;
  track_down : nat;
  track_stable : bool;
  track_events : list Event;
  track_pending : option Q
}.

Definition presence_track (l : Locals) : Track :=
  mkTrack (presence_counter l) (absence_counter l) (is_present l)
    (absence_events l) (current_absence l).

Definition focus_track (l : Locals) : Track :=
  mkTrack (focus_counter l) (distraction_counter l) (is_focused l)
    (distraction_events l) (current_distraction l).

(** The common shape of lines 295-313 and of lines 320-338. *)
Definition track_step (threshold : nat) (raw : bool) (now : Q) (tr : Track)
  : Track :=
  if raw then
    if (threshold <=? S (track_up tr))%nat && negb (track_stable tr)
    then
      match track_pending tr with
      | Some since =>
          mkTrack (S (track_up tr)) O true
            (track_events tr ++ [mkEvent since now (now - since)]) None
      | None =>
          mkTrack (S (track_up tr)) O true (track_events tr) (track_pending tr)
      end
    else
      mkTrack (S (track_up tr)) O (track_stable tr)
        (track_events tr) (track_pending tr)
  else
    if (threshold <=? S (track_down tr))%nat && track_stable tr
    then mkTrack O (S (track_down tr)) false (track_events tr) (Some now)
    else
      mkTrack O (S (track_down tr)) (track_stable tr)
        (track_events tr) (track_pending tr).

(** The number of frames needed to have logged the events of a track:
    [T] frames to reach the stable value true, [2 * T] more for every
    interval that was opened and closed. *)
Definition log_budget (T N : nat) (tr : Track) : Prop :=
  if track_stable tr then
    (length (track_events tr) * (2 * T) + T + track_down tr <= N)%nat
  else
    match track_pending tr with
    | Some _ =>
        (length (track_events tr) * (2 * T) + 2 * T + track_up tr <= N)%nat
    | None => track_events tr = [] /\ (track_up tr <= N)%nat
    end.

(** The events start no earlier than [lo], do not end before they start,
    and each starts no earlier than the one before it ended. *)
Fixpoint chronological (lo : Q) (events : list Event) : Prop :=
  match events with
  | [] => True
  | e :: rest =>
      lo <= start_ts e /\ start_ts e <= end_ts e /\
      chronological (end_ts e) rest
  end.

(** The end of the last event, or [lo] when there is none. *)
Fixpoint last_end (lo : Q) (events : list Event) : Q :=
  match events with
  | [] => lo
  | e :: rest => last_end (end_ts e) rest
  end.


(** The number of elements equal to [b] at the head, and at the end, of a
    list of raw values. *)
Fixpoint leading_run (b : bool) (raws : list bool) : nat :=
  match raws with
  | r :: rest => if Bool.eqb r b then S (leading_run b rest) else O
  | [] => O
  end.

Definition trailing_run (b : bool) (raws : list bool) : nat :=
  leading_run b (rev raws).


(** The three command codes. *)
Definition is_command (c : ascii) : Prop :=
  c = "A"%char \/ c = "D"%char \/ c = "F"%char.

(** A capture that does not end the loop. *)
Definition keep_going (fr : Frame) : Capture := Grabbed fr false.

(* ===================================================================== *)
(** * The one-image classifier ([Backend/model/PythonEyeDetection.py]) *)
(* ===================================================================== *)

Module Backend.

(** The values of the dictionaries the script prints with [json.dumps]. *)
Inductive json : Type :=
  | JString (s : string)
  | JNumber (q : Q).

Definition dict : Type := list (string * json).

Section Classifier.

(** OpenCV: [cv2.imread], which gives [None] for a file it cannot read, and
    the number of faces [detectMultiScale] finds on the grey image. *)
Variable Image : Type.
Variable imread : string -> option Image.
Variable count_faces : Image -> nat.

(** [classify_attention(image_path)], lines 6-26. *)
Definition classify_attention (image_path : string) : dict :=
  match imread image_path with
  | None => [("error"%string, JString "Could not read image")]
  | Some image =>
      if (0 <? count_faces image)%nat
      then [("status"%string, JString "attentive");
            ("confidence"%string, JNumber 0.95)]
      else [("status"%string, JString "not_attentive");
            ("confidence"%string, JNumber 0.10)]
  end.

(** Lines 28-34: what is printed and the exit status. *)
Definition main (argv : list string) : list dict * nat :=
  if negb (length argv =? 2)%nat
  then ([[("error"%string, JString "No image provided")]], 1%nat)
  else
    let image_path := nth 1 argv EmptyString in
    ([classify_attention image_path], 0%nat).

End Classifier.

(** The value stored under a key. *)
Fixpoint lookup (key : string) (d : dict) : option json :=
  match d with
  | [] => None
  | (k, v) :: rest => if String.eqb key k then Some v else lookup key rest
  end.

End Backend.

(* ===================================================================== *)
(** * The model at work *)
(* ===================================================================== *)

(** Thirty frames one second apart, a connected link: the user is seen
    from frame 10, lost from frame 20 and seen again on frame 30.  One
    absence and one distraction are logged, from 20 to 30; the device
    receives A, F, A, F. *)
Example running_clock_session :
  exists g l,
    run_detection script_thresholds 0 globals_connected running_clock_frames
      = Ok (g, l) /\
    absence_events l = [mkEvent 20 30 10] /\
    distraction_events l = [mkEvent 20 30 10] /\
    received g = ["A"; "F"; "A"; "F"]%char /\
    total_time l == 30 /\ present_time l == 11 /\ focused_time l == 11.
Proof.
  eexists. eexists. split; [vm_compute; reflexivity|].
  repeat split; reflexivity.
Qed.

(** Twenty seconds in all, fifteen of them present, ten of them focused. *)
Example scores_of_a_session :
  exists sc,
    compute_scores 20 15 10 = Ok sc /\
    presence_score sc == 75 /\
    focus_score sc == 200 / 3 /\
    overall_score sc == 50.
Proof.
  eexists. split; [vm_compute; reflexivity|].
  repeat split; reflexivity.
Qed.

(** Scenario A without the actuator: nothing is written, nothing is added
    to the output, and the command is tracked all the same. *)
Example disconnected_session :
  exists l,
    run_detection script_thresholds 0 globals_disconnected scenario_A_frames
      = Ok (globals_disconnected, l) /\
    is_present l = true /\
    last_arduino_state l = Some "F"%char.
Proof.
  eexists. split; [vm_compute; reflexivity|].
  split; reflexivity.
Qed.

(** With no frame at all the summary reads a score that was never bound. *)
Example summary_without_frames :
  exists g l,
    run_detection script_thresholds 0 globals_connected [] = Ok (g, l) /\
    session_summary l = Raise NameError.
Proof.
  eexists. eexists. split; reflexivity.
Qed.

(* ===================================================================== *)
(** * The loop body never raises, and what it computes *)
(* ===================================================================== *)

Lemma Qgt_bool_true (a b : Q) : Qgt_bool a b = true <-> b < a.
Proof.
  unfold Qgt_bool. rewrite negb_true_iff. split; intros H.
  - apply Qnot_le_lt. intros Hle. apply Qle_bool_iff in Hle. congruence.
  - destruct (Qle_bool a b) eqn:E; [|reflexivity].
    apply Qle_bool_iff in E. lra.
Qed.


Lemma percentage_value (num den : Q) :
  percentage num den = Ok (if Qgt_bool den 0 then num / den * 100 else 0).
Proof.
  unfold percentage, truediv.
  destruct (Qgt_bool den 0) eqn:Hgt; [|reflexivity].
  apply Qgt_bool_true in Hgt.
  destruct (Qeq_bool den 0) eqn:Hz; [|reflexivity].
  apply Qeq_bool_iff in Hz. lra.
Qed.

Lemma compute_scores_total (t p f : Q) :
  exists sc, compute_scores t p f = Ok sc.
Proof.
  unfold compute_scores. rewrite !percentage_value. simpl. eauto.
Qed.

Lemma compute_scores_inv (t p f : Q) (sc : Scores) :
  compute_scores t p f = Ok sc ->
  percentage p t = Ok (presence_score sc) /\
  percentage f p = Ok (focus_score sc) /\
  percentage f t = Ok (overall_score sc).
Proof.
  unfold compute_scores. rewrite !percentage_value. simpl.
  intros H. inversion H; subst; simpl. auto.
Qed.

Lemma loop_body_total (th : Thresholds) (fr : Frame) (st : Globals * Locals) :
  exists st', loop_body th fr st = Ok st'.
Proof.
  destruct st as [g l]. unfold loop_body.
  destruct (detect _) as [face focus].
  destruct (presence_state_machine _ _ _ _) as [[[[pc ac] p] pe] pa].
  destruct (focus_state_machine _ _ _ _) as [[[[fc dc] f] de] da].
  match goal with |- context [compute_scores ?t ?p ?f] =>
    destruct (compute_scores_total t p f) as [sc ->] end.
  simpl. eauto.
Qed.

Lemma differs_spec (c : ascii) (last : option ascii) :
  differs c last = true <-> last <> Some c.
Proof.
  destruct last as [d|]; simpl.
  - rewrite negb_true_iff. split; intros H.
    + intros E. inversion E; subst. rewrite Ascii.eqb_refl in H. discriminate.
    + destruct (Ascii.eqb c d) eqn:E; [|reflexivity].
      apply Ascii.eqb_eq in E. subst. congruence.
  - split; [discriminate|reflexivity].
Qed.

Lemma differs_false (c : ascii) (last : option ascii) :
  differs c last = false <-> last = Some c.
Proof.
  destruct (differs c last) eqn:E.
  - apply differs_spec in E. split; [discriminate|contradiction].
  - split; [intros _|reflexivity].
    destruct last as [d|]; simpl in E; [|discriminate].
    apply negb_false_iff, Ascii.eqb_eq in E. congruence.
Qed.

(** Everything one iteration does, field by field. *)
Lemma loop_body_inv (th : Thresholds) (fr : Frame) (g g' : Globals)
  (l l' : Locals) :
  loop_body th fr (g, l) = Ok (g', l') ->
  start_time l' = current_time fr /\
  total_time l' = total_time l + (current_time fr - start_time l) /\
  (presence_counter l', absence_counter l', is_present l',
   absence_events l', current_absence l')
    = presence_state_machine th (face_detected fr) (current_time fr) l /\
  present_time l'
    = (if is_present l'
       then present_time l + (current_time fr - start_time l)
       else present_time l) /\
  (focus_counter l', distraction_counter l', is_focused l',
   distraction_events l', current_distraction l')
    = focus_state_machine th (focus_detected fr) (current_time fr) l /\
  focused_time l'
    = (if is_focused l'
       then focused_time l + (current_time fr - start_time l)
       else focused_time l) /\
  (exists sc, scores l' = Some sc /\
     compute_scores (total_time l') (present_time l') (focused_time l') = Ok sc) /\
  last_arduino_state l' = Some (arduino_state (is_present l') (is_focused l')) /\
  g' = (if differs (arduino_state (is_present l') (is_focused l'))
             (last_arduino_state l)
        then send_to_arduino (write_ok fr)
               (arduino_state (is_present l') (is_focused l')) g
        else g).
Proof.
  unfold loop_body, face_detected, focus_detected.
  destruct (detect _) as [face focus]. simpl fst. simpl snd.
  destruct (presence_state_machine _ _ _ _) as [[[[pc ac] p] pe] pa].
  destruct (focus_state_machine _ _ _ _) as [[[[fc dc] f] de] da].
  match goal with |- context [compute_scores ?t ?p ?f] =>
    destruct (compute_scores t p f) as [sc|e] eqn:Hsc end; simpl; [|discriminate].
  intros H. inversion H; subst; clear H. simpl.
  repeat split; try reflexivity.
  - exists sc. split; [reflexivity|exact Hsc].
  - destruct (differs _ _) eqn:E; [reflexivity|].
    apply differs_false in E. exact E.
Qed.

Arguments loop_body : simpl never.

Lemma loop_app (th : Thresholds) (xs ys : list Frame) (st : Globals * Locals) :
  loop th (xs ++ ys) st = (st' <- loop th xs st ;; loop th ys st').
Proof.
  revert st. induction xs as [|x xs IH]; intros st; simpl; [reflexivity|].
  destruct (loop_body th x st) as [st1|e]; simpl; [apply IH|reflexivity].
Qed.

Lemma loop_total (th : Thresholds) (frames : list Frame) (st : Globals * Locals) :
  exists st', loop th frames st = Ok st'.
Proof.
  revert st. induction frames as [|fr rest IH]; intros st; simpl; [eauto|].
  destruct (loop_body_total th fr st) as [st1 ->]. simpl. apply IH.
Qed.

Lemma loop_snoc_inv (th : Thresholds) (pre : list Frame) (fr : Frame)
  (st st2 : Globals * Locals) :
  loop th (pre ++ [fr]) st = Ok st2 ->
  exists st1, loop th pre st = Ok st1 /\ loop_body th fr st1 = Ok st2.
Proof.
  rewrite loop_app. destruct (loop th pre st) as [st1|e]; simpl; [|discriminate].
  destruct (loop_body th fr st1) as [st3|e] eqn:E; simpl; [|discriminate].
  intros H. inversion H; subst. eauto.
Qed.

(** A property kept by every iteration holds after the whole loop. *)
Lemma loop_preserves (th : Thresholds) (P : Locals -> Prop) :
  (forall fr g l g' l', P l -> loop_body th fr (g, l) = Ok (g', l') -> P l') ->
  forall frames g l g' l',
    P l -> loop th frames (g, l) = Ok (g', l') -> P l'.
Proof.
  intros Hstep. induction frames as [|fr rest IH]; intros g l g' l' HP; simpl.
  - intros H. inversion H; subst. exact HP.
  - destruct (loop_body th fr (g, l)) as [[g1 l1]|e] eqn:E; simpl; [|discriminate].
    intros H. eapply IH; [|exact H]. eapply Hstep; eauto.
Qed.

(* ===================================================================== *)
(** * One debounced axis *)
(* ===================================================================== *)

Lemma presence_axis_step (th : Thresholds) (fr : Frame) (g g' : Globals)
  (l l' : Locals) :
  loop_body th fr (g, l) = Ok (g', l') ->
  presence_axis l'
    = debounce (presence_threshold th) (face_detected fr) (presence_axis l).
Proof.
  intros H. apply loop_body_inv in H.
  destruct H as (_ & _ & Hp & _).
  unfold presence_axis, debounce, presence_state_machine in *. simpl.
  destruct (face_detected fr);
    [ destruct ((presence_threshold th <=? S (presence_counter l))%nat
                && negb (is_present l));
      [destruct (current_absence l)|]
    | destruct ((presence_threshold th <=? S (absence_counter l))%nat
                && is_present l) ];
    inversion Hp; reflexivity.
Qed.

Lemma focus_axis_step (th : Thresholds) (fr : Frame) (g g' : Globals)
  (l l' : Locals) :
  loop_body th fr (g, l) = Ok (g', l') ->
  focus_axis l'
    = debounce (focus_threshold th) (focus_detected fr) (focus_axis l).
Proof.
  intros H. apply loop_body_inv in H.
  destruct H as (_ & _ & _ & _ & Hf & _).
  unfold focus_axis, debounce, focus_state_machine in *. simpl.
  destruct (focus_detected fr);
    [ destruct ((focus_threshold th <=? S (focus_counter l))%nat
                && negb (is_focused l));
      [destruct (current_distraction l)|]
    | destruct ((focus_threshold th <=? S (distraction_counter l))%nat
                && is_focused l) ];
    inversion Hf; reflexivity.
Qed.

Lemma debounce_all_snoc (T : nat) (raws : list bool) (r : bool) (a : Axis) :
  debounce_all T (raws ++ [r]) a = debounce T r (debounce_all T raws a).
Proof. unfold debounce_all. rewrite fold_left_app. reflexivity. Qed.

Lemma presence_axis_loop (th : Thresholds) (frames : list Frame)
  (g g' : Globals) (l l' : Locals) :
  loop th frames (g, l) = Ok (g', l') ->
  presence_axis l'
    = debounce_all (presence_threshold th) (map face_detected frames)
        (presence_axis l).
Proof.
  revert g l. induction frames as [|fr rest IH]; intros g l; simpl.
  - intros H. inversion H; subst. reflexivity.
  - destruct (loop_body th fr (g, l)) as [[g1 l1]|e] eqn:E; simpl; [|discriminate].
    intros H. rewrite (IH _ _ H). rewrite (presence_axis_step _ _ _ _ _ _ E).
    reflexivity.
Qed.

Lemma focus_axis_loop (th : Thresholds) (frames : list Frame)
  (g g' : Globals) (l l' : Locals) :
  loop th frames (g, l) = Ok (g', l') ->
  focus_axis l'
    = debounce_all (focus_threshold th) (map focus_detected frames)
        (focus_axis l).
Proof.
  revert g l. induction frames as [|fr rest IH]; intros g l; simpl.
  - intros H. inversion H; subst. reflexivity.
  - destruct (loop_body th fr (g, l)) as [[g1 l1]|e] eqn:E; simpl; [|discriminate].
    intros H. rewrite (IH _ _ H). rewrite (focus_axis_step _ _ _ _ _ _ E).
    reflexivity.
Qed.

Section Debounce.

Variable T : nat.
Hypothesis T_pos : (0 < T)%nat.

(** The invariant of an axis: the counter that leads out of the stable
    value has not reached the threshold. *)
Lemma debounce_bound (raw : bool) (a : Axis) :
  (progress a < T)%nat -> (progress (debounce T raw a) < T)%nat.
Proof.
  destruct a as [s u d]. unfold progress, debounce. simpl.
  destruct raw, s; simpl; rewrite ?andb_true_r, ?andb_false_r; simpl;
    try lia; intros H;
    match goal with |- context [(?x <=? ?y)%nat] =>
      destruct (Nat.leb_spec x y) end; simpl; lia.
Qed.

(** The stable value flips exactly when the raw value is the opposite one
    and this frame is the [T]-th of its run. *)
Lemma debounce_flip (raw : bool) (a : Axis) :
  (progress a < T)%nat ->
  (stable (debounce T raw a) = negb (stable a)
   <-> raw = negb (stable a) /\ S (progress a) = T).
Proof.
  destruct a as [s u d]. unfold progress, debounce. simpl.
  destruct raw, s; simpl; rewrite ?andb_true_r, ?andb_false_r; simpl;
    intros H;
    try (split; [discriminate | intros [? _]; discriminate]);
    match goal with |- context [(?x <=? ?y)%nat] =>
      destruct (Nat.leb_spec x y) end; simpl;
    (split; [ intros E; first [discriminate | split; [reflexivity|lia]]
            | intros [_ E]; first [reflexivity | lia] ]).
Qed.

(** The counter after one frame: 0 after a flip or a frame that agrees
    with the stable value, one more otherwise. *)
Lemma debounce_progress (raw : bool) (a : Axis) :
  (progress a < T)%nat ->
  progress (debounce T raw a)
  = if Bool.eqb raw (stable a) then O
    else if (S (progress a) =? T)%nat then O
    else S (progress a).
Proof.
  destruct a as [s u d]. unfold progress, debounce.
  cbn [stable run_true run_false].
  destruct raw, s; cbn [Bool.eqb negb andb]; intros H;
    rewrite ?andb_true_r, ?andb_false_r; cbn [stable run_true run_false];
    try reflexivity;
    match goal with |- context [(?x <=? ?y)%nat] =>
      destruct (Nat.leb_spec x y) end;
    match goal with |- context [(?x =? ?y)%nat] =>
      destruct (Nat.eqb_spec x y) end;
    cbn [stable run_true run_false]; lia.
Qed.

(** The script's two counters implement the single counter of the
    specification. *)
Lemma debounce_refines (raw : bool) (a : Axis) :
  (progress a < T)%nat ->
  spec_update T raw (abstraction a)
  = (Bool.eqb (stable (debounce T raw a)) (negb (stable a)),
     abstraction (debounce T raw a)).
Proof.
  intros H.
  pose proof (debounce_progress raw a H) as Hp.
  pose proof (debounce_flip raw a H) as Hf.
  unfold spec_update, abstraction.
  cbn [match_counter stable_state]. rewrite Hp.
  destruct (Bool.eqb raw (negb (stable a))) eqn:Eraw.
  - apply Bool.eqb_prop in Eraw.
    replace (Bool.eqb raw (stable a)) with false
      by (rewrite Eraw; destruct (stable a); reflexivity).
    destruct (Nat.eqb_spec (S (progress a)) T) as [E|E].
    + rewrite (proj2 Hf (conj Eraw E)).
      rewrite Bool.eqb_reflx. reflexivity.
    + destruct (Bool.eqb (stable (debounce T raw a)) (negb (stable a))) eqn:Es.
      * apply Bool.eqb_prop in Es. apply Hf in Es. tauto.
      * replace (stable (debounce T raw a)) with (stable a); [reflexivity|].
        destruct (stable (debounce T raw a)), (stable a);
          simpl in Es; congruence.
  - replace (Bool.eqb raw (stable a)) with true
      by (destruct raw, (stable a); simpl in *; congruence).
    destruct (Nat.eqb_spec O T) as [E|E]; [lia|].
    destruct (Bool.eqb (stable (debounce T raw a)) (negb (stable a))) eqn:Es.
    + apply Bool.eqb_prop in Es. apply Hf in Es. destruct Es as [Es _].
      rewrite Es, Bool.eqb_reflx in Eraw. discriminate.
    + replace (stable (debounce T raw a)) with (stable a); [reflexivity|].
      destruct (stable (debounce T raw a)), (stable a);
        simpl in Es; congruence.
Qed.

Lemma debounce_all_bound (raws : list bool) (a : Axis) :
  (progress a < T)%nat -> (progress (debounce_all T raws a) < T)%nat.
Proof.
  revert a. induction raws as [|r raws IH]; intros a H; simpl; [exact H|].
  apply IH. apply debounce_bound. exact H.
Qed.

End Debounce.

Lemma lastn_O {A : Type} (l : list A) : lastn 0 l = [].
Proof.
  unfold lastn. rewrite Nat.sub_0_r. apply skipn_all.
Qed.

Lemma lastn_snoc {A : Type} (k : nat) (l : list A) (x : A) :
  (k <= length l)%nat -> lastn (S k) (l ++ [x]) = lastn k l ++ [x].
Proof.
  intros H. unfold lastn. rewrite length_app. simpl.
  replace (length l + 1 - S k)%nat with (length l - k)%nat by lia.
  rewrite skipn_app.
  replace (length l - k - length l)%nat with O by lia.
  reflexivity.
Qed.

Lemma lastn_map {A B : Type} (f : A -> B) (k : nat) (l : list A) :
  lastn k (map f l) = map f (lastn k l).
Proof.
  unfold lastn. rewrite length_map. apply skipn_map.
Qed.

Section DebounceHistory.

Variable T : nat.
Hypothesis T_pos : (0 < T)%nat.

Lemma debounce_keep (raw : bool) (a : Axis) :
  (progress a < T)%nat ->
  stable (debounce T raw a) <> negb (stable a) ->
  stable (debounce T raw a) = stable a.
Proof.
  intros _ H. destruct (stable (debounce T raw a)), (stable a);
    simpl in *; congruence.
Qed.

(** A frame that agrees with the stable value throws the progress away. *)
Lemma debounce_reset (raw : bool) (a : Axis) :
  (progress a < T)%nat ->
  raw = stable a ->
  stable (debounce T raw a) = stable a /\ progress (debounce T raw a) = O.
Proof.
  intros H E. split.
  - apply debounce_keep; [exact H|]. intros F.
    apply (debounce_flip T T_pos) in F; [|exact H].
    destruct F as [F _]. rewrite E in F. destruct (stable a); discriminate.
  - rewrite (debounce_progress T T_pos) by exact H.
    rewrite E, Bool.eqb_reflx. reflexivity.
Qed.

(** The progress counter counts the frames at the end of the history that
    all carry the value opposite to the stable one. *)
Lemma debounce_history (raws : list bool) (a0 : Axis) :
  progress a0 = O ->
  (progress (debounce_all T raws a0) <= length raws)%nat /\
  Forall (fun r => r = negb (stable (debounce_all T raws a0)))
    (lastn (progress (debounce_all T raws a0)) raws).
Proof.
  intros H0. induction raws as [|r raws IH] using rev_ind.
  - simpl. rewrite H0. split; [lia|]. rewrite lastn_O. constructor.
  - rewrite debounce_all_snoc.
    set (a := debounce_all T raws a0) in *.
    assert (Hb : (progress a < T)%nat)
      by (apply debounce_all_bound; [exact T_pos | lia]).
    destruct IH as [IHlen IHall].
    rewrite (debounce_progress T T_pos r a Hb), length_app. cbn [length].
    destruct (Bool.eqb r (stable a)) eqn:Er;
      [split; [lia | rewrite lastn_O; constructor]|].
    destruct (Nat.eqb_spec (S (progress a)) T) as [E|E];
      [split; [lia | rewrite lastn_O; constructor]|].
    assert (Hs : stable (debounce T r a) = stable a).
    { apply debounce_keep; [exact Hb|]. intros F.
      apply (debounce_flip T T_pos) in F; [tauto | exact Hb]. }
    rewrite Hs. split; [lia|].
    rewrite lastn_snoc by exact IHlen.
    apply Forall_app. split; [exact IHall|].
    constructor; [|constructor].
    destruct r, (stable a); simpl in *; congruence.
Qed.

(** A flip is the end of [T] frames in a row that carry the new value. *)
Lemma debounce_flip_history (raws : list bool) (r : bool) (a0 : Axis) :
  progress a0 = O ->
  stable (debounce T r (debounce_all T raws a0))
    = negb (stable (debounce_all T raws a0)) ->
  (T <= length (raws ++ [r]))%nat /\
  Forall (fun x => x = negb (stable (debounce_all T raws a0)))
    (lastn T (raws ++ [r])).
Proof.
  intros H0 F.
  set (a := debounce_all T raws a0) in *.
  assert (Hb : (progress a < T)%nat)
    by (apply debounce_all_bound; [exact T_pos | lia]).
  apply (debounce_flip T T_pos) in F; [|exact Hb].
  destruct F as [Er Ep].
  destruct (debounce_history raws a0 H0) as [Hlen Hall]. fold a in Hlen, Hall.
  rewrite <- Ep. rewrite length_app. cbn [length]. split; [lia|].
  rewrite lastn_snoc by exact Hlen.
  apply Forall_app. split; [exact Hall|]. constructor; [exact Er|constructor].
Qed.

(** Frames in a row that carry the opposite value: fewer than what is
    missing to [T] leave the stable value alone... *)
Lemma debounce_run_short (k : nat) (a : Axis) :
  (progress a + k < T)%nat ->
  stable (debounce_all T (repeat (negb (stable a)) k) a) = stable a /\
  progress (debounce_all T (repeat (negb (stable a)) k) a)
    = (progress a + k)%nat.
Proof.
  revert a. induction k as [|k IH]; intros a H; simpl.
  - split; [reflexivity|lia].
  - assert (Hb : (progress a < T)%nat) by lia.
    assert (Hs : stable (debounce T (negb (stable a)) a) = stable a).
    { apply debounce_keep; [exact Hb|]. intros F.
      apply (debounce_flip T T_pos) in F; [lia | exact Hb]. }
    assert (Hp : progress (debounce T (negb (stable a)) a) = S (progress a)).
    { rewrite (debounce_progress T T_pos) by exact Hb.
      replace (Bool.eqb (negb (stable a)) (stable a)) with false
        by (destruct (stable a); reflexivity).
      destruct (Nat.eqb_spec (S (progress a)) T); [lia|reflexivity]. }
    specialize (IH (debounce T (negb (stable a)) a)).
    rewrite Hs, Hp in IH. destruct IH as [IH1 IH2]; [lia|].
    unfold debounce_all in *. split; [exact IH1 | rewrite IH2; lia].
Qed.

(** ... and exactly what is missing to [T] flips it, on the last one. *)
Lemma debounce_run_exact (k : nat) (a : Axis) :
  (progress a + k = T)%nat ->
  (progress a < T)%nat ->
  stable (debounce_all T (repeat (negb (stable a)) k) a) = negb (stable a) /\
  progress (debounce_all T (repeat (negb (stable a)) k) a) = O.
Proof.
  intros Hk Hb. destruct k as [|k]; [lia|].
  replace (repeat (negb (stable a)) (S k))
    with (repeat (negb (stable a)) k ++ [negb (stable a)])
    by (symmetry; apply (repeat_cons k (negb (stable a)))).
  rewrite debounce_all_snoc.
  destruct (debounce_run_short k a) as [Hs Hp]; [lia|].
  set (a1 := debounce_all T (repeat (negb (stable a)) k) a) in *.
  assert (Hb1 : (progress a1 < T)%nat) by lia.
  assert (F : stable (debounce T (negb (stable a)) a1) = negb (stable a1)).
  { apply (debounce_flip T T_pos); [exact Hb1|]. rewrite Hs. split; [reflexivity|lia]. }
  split; [rewrite F, Hs; reflexivity|].
  rewrite (debounce_progress T T_pos) by exact Hb1.
  rewrite Hs.
  replace (Bool.eqb (negb (stable a)) (stable a)) with false
    by (destruct (stable a); reflexivity).
  destruct (Nat.eqb_spec (S (progress a1)) T); [reflexivity|lia].
Qed.

End DebounceHistory.

Lemma Forall_repeat_eq {A : Type} (x : A) (l : list A) :
  Forall (fun y => y = x) l -> l = repeat x (length l).
Proof.
  induction 1 as [|y l Hy _ IH]; simpl; [reflexivity|].
  rewrite Hy. f_equal. exact IH.
Qed.

(* ===================================================================== *)
(** * Sessions *)
(* ===================================================================== *)

Lemma session_total (th : Thresholds) (t0 : Q) (g0 : Globals)
  (frames : list Frame) :
  exists g l, run_detection th t0 g0 frames = Ok (g, l).
Proof.
  unfold run_detection.
  destruct (loop_total th frames (g0, initial_locals t0)) as [[g l] H]. eauto.
Qed.

Lemma session_step_total (th : Thresholds) (t0 : Q) (g0 : Globals)
  (pre : list Frame) (fr : Frame) :
  exists g l g' l',
    run_detection th t0 g0 pre = Ok (g, l) /\
    loop_body th fr (g, l) = Ok (g', l').
Proof.
  destruct (session_total th t0 g0 pre) as (g & l & H).
  destruct (loop_body_total th fr (g, l)) as [[g' l'] H'].
  exists g, l, g', l'. auto.
Qed.

Lemma session_presence_axis (th : Thresholds) (t0 : Q) (g0 g : Globals)
  (frames : list Frame) (l : Locals) :
  run_detection th t0 g0 frames = Ok (g, l) ->
  presence_axis l
    = debounce_all (presence_threshold th) (map face_detected frames)
        (mkAxis false 0 0).
Proof. intros H. apply presence_axis_loop in H. exact H. Qed.

Lemma session_focus_axis (th : Thresholds) (t0 : Q) (g0 g : Globals)
  (frames : list Frame) (l : Locals) :
  run_detection th t0 g0 frames = Ok (g, l) ->
  focus_axis l
    = debounce_all (focus_threshold th) (map focus_detected frames)
        (mkAxis false 0 0).
Proof. intros H. apply focus_axis_loop in H. exact H. Qed.

Lemma session_presence_bound (th : Thresholds) (t0 : Q) (g0 g : Globals)
  (frames : list Frame) (l : Locals) :
  (0 < presence_threshold th)%nat ->
  run_detection th t0 g0 frames = Ok (g, l) ->
  (presence_progress l < presence_threshold th)%nat.
Proof.
  intros HT H. unfold presence_progress.
  rewrite (session_presence_axis _ _ _ _ _ _ H).
  apply debounce_all_bound; [exact HT | simpl; exact HT].
Qed.

Lemma session_focus_bound (th : Thresholds) (t0 : Q) (g0 g : Globals)
  (frames : list Frame) (l : Locals) :
  (0 < focus_threshold th)%nat ->
  run_detection th t0 g0 frames = Ok (g, l) ->
  (focus_progress l < focus_threshold th)%nat.
Proof.
  intros HT H. unfold focus_progress.
  rewrite (session_focus_axis _ _ _ _ _ _ H).
  apply debounce_all_bound; [exact HT | simpl; exact HT].
Qed.

(** What one more frame does to an axis whose history is known. *)
Lemma axis_session_step (T : nat) (raw_of : Frame -> bool)
  (pre : list Frame) (fr : Frame) (a a' : Axis) :
  (0 < T)%nat ->
  a = debounce_all T (map raw_of pre) (mkAxis false 0 0) ->
  a' = debounce T (raw_of fr) a ->
  (stable a' = negb (stable a)
   <-> raw_of fr = negb (stable a) /\ S (progress a) = T) /\
  (stable a' = negb (stable a) ->
   (T <= length (pre ++ [fr]))%nat /\
   Forall (fun f => raw_of f = negb (stable a)) (lastn T (pre ++ [fr]))) /\
  (raw_of fr = stable a -> stable a' = stable a /\ progress a' = O).
Proof.
  intros HT Ha Ha'.
  assert (Hb : (progress a < T)%nat).
  { rewrite Ha. apply debounce_all_bound; [exact HT | simpl; exact HT]. }
  split; [|split].
  - rewrite Ha'. apply debounce_flip; assumption.
  - intros F. rewrite Ha', Ha in F.
    apply (debounce_flip_history T HT) in F; [|reflexivity].
    destruct F as [Hlen Hall]. rewrite <- Ha in Hall.
    rewrite length_app in *. rewrite length_map in Hlen. split; [exact Hlen|].
    change [raw_of fr] with (map raw_of [fr]) in Hall.
    rewrite <- map_app, lastn_map in Hall.
    rewrite Forall_map in Hall. exact Hall.
  - intros E. rewrite Ha'. apply debounce_reset; assumption.
Qed.

(** What a block of frames that all carry the opposite value does. *)
Lemma axis_session_block (T : nat) (raw_of : Frame -> bool)
  (block : list Frame) (a a2 : Axis) :
  (0 < T)%nat ->
  (progress a < T)%nat ->
  a2 = debounce_all T (map raw_of block) a ->
  Forall (fun f => raw_of f = negb (stable a)) block ->
  ((progress a + length block < T)%nat ->
   stable a2 = stable a /\ progress a2 = (progress a + length block)%nat) /\
  ((progress a + length block = T)%nat ->
   stable a2 = negb (stable a) /\ progress a2 = O).
Proof.
  intros HT Hb Ha2 Hall.
  assert (Hmap : map raw_of block = repeat (negb (stable a)) (length block)).
  { rewrite <- (length_map raw_of block). apply Forall_repeat_eq.
    rewrite Forall_map. exact Hall. }
  rewrite Hmap in Ha2. rewrite Ha2. split; intros H.
  - apply debounce_run_short; assumption.
  - apply debounce_run_exact; assumption.
Qed.

Lemma scenario_A_presence (n : nat) :
  (n <= 20)%nat ->
  stable (debounce_all 10 (firstn n scenario_A_raws) (mkAxis false 0 0))
  = (n =? 20)%nat.
Proof.
  intros H.
  do 21 (destruct n as [|n]; [reflexivity|]). lia.
Qed.

(* ===================================================================== *)
(** * C1: a flip takes exactly T frames in a row *)
(* ===================================================================== *)

(** C1.  For thresholds above 0, on every frame of every session:
    [is_present] flips exactly when the frame carries the value opposite to
    it and is the T-th such frame of the current run; a flip is the end of
    T frames in a row that all carry the new value; and one frame that
    agrees with [is_present] puts the progress back to 0.  From any state
    of a session, a block of opposite frames shorter than what is missing
    to T leaves [is_present] alone and a block of exactly that length flips
    it.  The same holds for [is_focused].  With threshold 10, nine frames
    with a face, one without and ten with a face make [is_present] true
    after the twentieth frame and after no earlier one. *)
Theorem C1_flip_takes_exactly_T_frames (th : Thresholds) :
  (0 < presence_threshold th)%nat ->
  (0 < focus_threshold th)%nat ->
  (forall t0 g0 pre fr, exists g l g' l',
     run_detection th t0 g0 pre = Ok (g, l) /\
     loop_body th fr (g, l) = Ok (g', l') /\
     (is_present l' = negb (is_present l)
      <-> face_detected fr = negb (is_present l) /\
          S (presence_progress l) = presence_threshold th) /\
     (is_present l' = negb (is_present l) ->
      (presence_threshold th <= length (pre ++ [fr]))%nat /\
      Forall (fun f => face_detected f = negb (is_present l))
        (lastn (presence_threshold th) (pre ++ [fr]))) /\
     (face_detected fr = is_present l ->
      is_present l' = is_present l /\ presence_progress l' = O) /\
     (is_focused l' = negb (is_focused l)
      <-> focus_detected fr = negb (is_focused l) /\
          S (focus_progress l) = focus_threshold th) /\
     (is_focused l' = negb (is_focused l) ->
      (focus_threshold th <= length (pre ++ [fr]))%nat /\
      Forall (fun f => focus_detected f = negb (is_focused l))
        (lastn (focus_threshold th) (pre ++ [fr]))) /\
     (focus_detected fr = is_focused l ->
      is_focused l' = is_focused l /\ focus_progress l' = O)) /\
  (forall t0 g0 pre block, exists g l g2 l2,
     run_detection th t0 g0 pre = Ok (g, l) /\
     loop th block (g, l) = Ok (g2, l2) /\
     (Forall (fun f => face_detected f = negb (is_present l)) block ->
      ((presence_progress l + length block < presence_threshold th)%nat ->
       is_present l2 = is_present l /\
       presence_progress l2 = (presence_progress l + length block)%nat) /\
      ((presence_progress l + length block = presence_threshold th)%nat ->
       is_present l2 = negb (is_present l) /\ presence_progress l2 = O)) /\
     (Forall (fun f => focus_detected f = negb (is_focused l)) block ->
      ((focus_progress l + length block < focus_threshold th)%nat ->
       is_focused l2 = is_focused l /\
       focus_progress l2 = (focus_progress l + length block)%nat) /\
      ((focus_progress l + length block = focus_threshold th)%nat ->
       is_focused l2 = negb (is_focused l) /\ focus_progress l2 = O))) /\
  (presence_threshold th = 10%nat ->
   forall t0 g0 frames n,
     map face_detected frames = scenario_A_raws ->
     (n <= 20)%nat ->
     exists g l,
       run_detection th t0 g0 (firstn n frames) = Ok (g, l) /\
       is_present l = (n =? 20)%nat).
Proof.
  intros HTp HTf. split; [|split].
  - intros t0 g0 pre fr.
    destruct (session_step_total th t0 g0 pre fr) as (g & l & g' & l' & Hrun & Hstep).
    exists g, l, g', l'. split; [exact Hrun|]. split; [exact Hstep|].
    pose proof (axis_session_step _ face_detected pre fr _ _ HTp
                  (session_presence_axis _ _ _ _ _ _ Hrun)
                  (presence_axis_step _ _ _ _ _ _ Hstep)) as (P1 & P2 & P3).
    pose proof (axis_session_step _ focus_detected pre fr _ _ HTf
                  (session_focus_axis _ _ _ _ _ _ Hrun)
                  (focus_axis_step _ _ _ _ _ _ Hstep)) as (F1 & F2 & F3).
    repeat split; first [apply P1 | apply P2 | apply P3
                        | apply F1 | apply F2 | apply F3]; assumption.
  - intros t0 g0 pre block.
    destruct (session_total th t0 g0 pre) as (g & l & Hrun).
    destruct (loop_total th block (g, l)) as [[g2 l2] Hblock].
    exists g, l, g2, l2. split; [exact Hrun|]. split; [exact Hblock|].
    split; intros Hall.
    + apply (axis_session_block _ face_detected block
               (presence_axis l) (presence_axis l2) HTp).
      * exact (session_presence_bound _ _ _ _ _ _ HTp Hrun).
      * exact (presence_axis_loop _ _ _ _ _ _ Hblock).
      * exact Hall.
    + apply (axis_session_block _ focus_detected block
               (focus_axis l) (focus_axis l2) HTf).
      * exact (session_focus_bound _ _ _ _ _ _ HTf Hrun).
      * exact (focus_axis_loop _ _ _ _ _ _ Hblock).
      * exact Hall.
  - intros H10 t0 g0 frames n Hraws Hn.
    destruct (session_total th t0 g0 (firstn n frames)) as (g & l & Hrun).
    exists g, l. split; [exact Hrun|].
    change (is_present l) with (stable (presence_axis l)).
    rewrite (session_presence_axis _ _ _ _ _ _ Hrun), H10.
    rewrite <- firstn_map, Hraws. apply scenario_A_presence. exact Hn.
Qed.

(** The script's thresholds, Scenario A up to its twentieth frame. *)
Lemma C1_witness :
  (0 < presence_threshold script_thresholds)%nat /\
  (0 < focus_threshold script_thresholds)%nat /\
  exists g l,
    run_detection script_thresholds 0 globals_connected
      (firstn 20 scenario_A_frames) = Ok (g, l) /\
    is_present l = true.
Proof.
  split; [simpl; lia|]. split; [simpl; lia|].
  destruct (C1_flip_takes_exactly_T_frames script_thresholds
              ltac:(simpl; lia) ltac:(simpl; lia)) as (_ & _ & HA).
  exact (HA eq_refl 0 globals_connected scenario_A_frames 20%nat eq_refl
           (Nat.le_refl 20)).
Defined.

(* ===================================================================== *)
(** * C7: the progress counter *)
(* ===================================================================== *)

Lemma axis_counter_facts (T : nat) (raw : bool) (a : Axis) :
  (0 < T)%nat ->
  (progress a < T)%nat ->
  (progress a <= T)%nat /\
  (progress (debounce T raw a) <= T)%nat /\
  spec_update T raw (abstraction a)
    = (Bool.eqb (stable (debounce T raw a)) (negb (stable a)),
       abstraction (debounce T raw a)) /\
  (stable (debounce T raw a) <> stable a ->
   raw = negb (stable a) /\
   S (progress a) = T /\
   progress (debounce T raw a) = O /\
   (if stable (debounce T raw a)
    then run_true (debounce T raw a)
    else run_false (debounce T raw a)) = T).
Proof.
  intros HT Hb.
  pose proof (debounce_bound T HT raw a Hb) as Hb'.
  split; [lia|]. split; [lia|].
  split; [apply debounce_refines; assumption|].
  intros Hne.
  assert (F : stable (debounce T raw a) = negb (stable a))
    by (destruct (stable (debounce T raw a)), (stable a); simpl; congruence).
  pose proof (proj1 (debounce_flip T HT raw a Hb) F) as [Er Ep].
  split; [exact Er|]. split; [exact Ep|]. split.
  - rewrite (debounce_progress T HT raw a Hb).
    destruct (Bool.eqb raw (stable a)); [reflexivity|].
    rewrite Ep, Nat.eqb_refl. reflexivity.
  - rewrite F. clear Hb' F Hne. destruct a as [s u d].
    unfold progress, debounce in *. simpl in *. subst raw.
    destruct s; simpl; rewrite ?andb_true_r;
      match goal with |- context [(?x <=? ?y)%nat] =>
        destruct (Nat.leb_spec x y) end; simpl; lia.
Qed.

(** C7.  For thresholds above 0, on every frame of every session and for
    each axis: the counter that leads out of the stable value lies between
    0 and the threshold before and after the frame; read as the
    [match_counter] of the specification it is updated as section 4.1 says;
    and the stable value changes only on a frame that carries the opposite
    value and takes that counter to the threshold, after which the counter
    that leads out of the new stable value is 0. *)
Theorem C7_progress_counter_in_range (th : Thresholds) :
  (0 < presence_threshold th)%nat ->
  (0 < focus_threshold th)%nat ->
  forall t0 g0 pre fr, exists g l g' l',
    run_detection th t0 g0 pre = Ok (g, l) /\
    loop_body th fr (g, l) = Ok (g', l') /\
    ((presence_progress l <= presence_threshold th)%nat /\
     (presence_progress l' <= presence_threshold th)%nat /\
     spec_update (presence_threshold th) (face_detected fr)
       (abstraction (presence_axis l))
     = (Bool.eqb (is_present l') (negb (is_present l)),
        abstraction (presence_axis l')) /\
     (is_present l' <> is_present l ->
      face_detected fr = negb (is_present l) /\
      S (presence_progress l) = presence_threshold th /\
      presence_progress l' = O /\
      (if is_present l' then presence_counter l' else absence_counter l')
        = presence_threshold th)) /\
    ((focus_progress l <= focus_threshold th)%nat /\
     (focus_progress l' <= focus_threshold th)%nat /\
     spec_update (focus_threshold th) (focus_detected fr)
       (abstraction (focus_axis l))
     = (Bool.eqb (is_focused l') (negb (is_focused l)),
        abstraction (focus_axis l')) /\
     (is_focused l' <> is_focused l ->
      focus_detected fr = negb (is_focused l) /\
      S (focus_progress l) = focus_threshold th /\
      focus_progress l' = O /\
      (if is_focused l' then focus_counter l' else distraction_counter l')
        = focus_threshold th)).
Proof.
  intros HTp HTf t0 g0 pre fr.
  destruct (session_step_total th t0 g0 pre fr) as (g & l & g' & l' & Hrun & Hstep).
  exists g, l, g', l'. split; [exact Hrun|]. split; [exact Hstep|]. split.
  - pose proof (axis_counter_facts _ (face_detected fr) (presence_axis l) HTp
                  (session_presence_bound _ _ _ _ _ _ HTp Hrun)) as H.
    rewrite <- (presence_axis_step _ _ _ _ _ _ Hstep) in H. exact H.
  - pose proof (axis_counter_facts _ (focus_detected fr) (focus_axis l) HTf
                  (session_focus_bound _ _ _ _ _ _ HTf Hrun)) as H.
    rewrite <- (focus_axis_step _ _ _ _ _ _ Hstep) in H. exact H.
Qed.

(** The script's thresholds, the twentieth frame of Scenario A. *)
Lemma C7_witness :
  (0 < presence_threshold script_thresholds)%nat /\
  (0 < focus_threshold script_thresholds)%nat /\
  exists g l g' l',
    run_detection script_thresholds 0 globals_connected
      (firstn 19 scenario_A_frames) = Ok (g, l) /\
    loop_body script_thresholds (focused_frame 20) (g, l) = Ok (g', l') /\
    (presence_progress l' <= 10)%nat.
Proof.
  split; [simpl; lia|]. split; [simpl; lia|].
  destruct (C7_progress_counter_in_range script_thresholds
              ltac:(simpl; lia) ltac:(simpl; lia)
              0 globals_connected (firstn 19 scenario_A_frames)
              (focused_frame 20))
    as (g & l & g' & l' & Hrun & Hstep & (_ & Hb & _) & _).
  exists g, l, g', l'. auto.
Defined.

(* ===================================================================== *)
(** * The elapsed times *)
(* ===================================================================== *)

(** The clock readings of a session split at any frame. *)
Lemma nondecreasing_split (th : Thresholds) (xs ys : list Frame)
  (g g1 : Globals) (l l1 : Locals) :
  nondecreasing_from (start_time l) (xs ++ ys) ->
  loop th xs (g, l) = Ok (g1, l1) ->
  nondecreasing_from (start_time l) xs /\
  nondecreasing_from (start_time l1) ys.
Proof.
  revert g l. induction xs as [|x xs IH]; intros g l Hnd; simpl.
  - intros H. inversion H; subst. split; [exact I|exact Hnd].
  - destruct (loop_body th x (g, l)) as [[g2 l2]|e] eqn:E; simpl; [|discriminate].
    intros H. simpl in Hnd. destruct Hnd as [Hle Hnd].
    pose proof (loop_body_inv _ _ _ _ _ _ E) as (Hst & _).
    rewrite <- Hst in Hnd. destruct (IH _ _ Hnd H) as [H1 H2].
    rewrite Hst in H1. auto.
Qed.

Lemma increasing_split (th : Thresholds) (xs ys : list Frame)
  (g g1 : Globals) (l l1 : Locals) :
  increasing_from (start_time l) (xs ++ ys) ->
  loop th xs (g, l) = Ok (g1, l1) ->
  increasing_from (start_time l) xs /\
  increasing_from (start_time l1) ys.
Proof.
  revert g l. induction xs as [|x xs IH]; intros g l Hnd; simpl.
  - intros H. inversion H; subst. split; [exact I|exact Hnd].
  - destruct (loop_body th x (g, l)) as [[g2 l2]|e] eqn:E; simpl; [|discriminate].
    intros H. simpl in Hnd. destruct Hnd as [Hle Hnd].
    pose proof (loop_body_inv _ _ _ _ _ _ E) as (Hst & _).
    rewrite <- Hst in Hnd. destruct (IH _ _ Hnd H) as [H1 H2].
    rewrite Hst in H1. auto.
Qed.

Lemma increasing_nondecreasing (t : Q) (frames : list Frame) :
  increasing_from t frames -> nondecreasing_from t frames.
Proof.
  revert t. induction frames as [|fr rest IH]; intros t; simpl; [auto|].
  intros [H1 H2]. split; [lra|auto].
Qed.

(** A property kept by every iteration whose clock reading is not before
    the previous one holds after the whole loop. *)
Lemma loop_preserves_chrono (th : Thresholds) (P : Locals -> Prop) :
  (forall fr g l g' l',
     P l -> start_time l <= current_time fr ->
     loop_body th fr (g, l) = Ok (g', l') -> P l') ->
  forall frames g l g' l',
    P l -> nondecreasing_from (start_time l) frames ->
    loop th frames (g, l) = Ok (g', l') -> P l'.
Proof.
  intros Hstep. induction frames as [|fr rest IH]; intros g l g' l' HP Hnd; simpl.
  - intros H. inversion H; subst. exact HP.
  - destruct (loop_body th fr (g, l)) as [[g1 l1]|e] eqn:E; simpl; [|discriminate].
    intros H. simpl in Hnd. destruct Hnd as [Hle Hnd].
    pose proof (loop_body_inv _ _ _ _ _ _ E) as (Hst & _).
    rewrite <- Hst in Hnd.
    eapply IH; [|exact Hnd|exact H]. eapply Hstep; eauto.
Qed.

(** One iteration whose [time_diff] is not negative. *)
Lemma times_step (th : Thresholds) (fr : Frame) (g g' : Globals)
  (l l' : Locals) :
  loop_body th fr (g, l) = Ok (g', l') ->
  start_time l <= current_time fr ->
  total_time l <= total_time l' /\
  present_time l <= present_time l' /\
  focused_time l <= focused_time l' /\
  present_time l' - present_time l <= total_time l' - total_time l /\
  focused_time l' - focused_time l <= total_time l' - total_time l.
Proof.
  intros H Hle.
  pose proof (loop_body_inv _ _ _ _ _ _ H) as (_ & Ht & _ & Hp & _ & Hf & _).
  rewrite Ht, Hp, Hf.
  destruct (is_present l'), (is_focused l'); repeat split; lra.
Qed.

Lemma times_invariant (th : Thresholds) (frames : list Frame)
  (g g' : Globals) (l l' : Locals) :
  (0 <= present_time l <= total_time l /\ 0 <= focused_time l <= total_time l) ->
  nondecreasing_from (start_time l) frames ->
  loop th frames (g, l) = Ok (g', l') ->
  0 <= present_time l' <= total_time l' /\ 0 <= focused_time l' <= total_time l'.
Proof.
  apply (loop_preserves_chrono th
           (fun l => 0 <= present_time l <= total_time l /\
                     0 <= focused_time l <= total_time l)).
  clear. intros fr g l g' l' HI Hle H.
  pose proof (times_step _ _ _ _ _ _ H Hle). lra.
Qed.

(* ===================================================================== *)
(** * C3: the elapsed times grow and stay below the total *)
(* ===================================================================== *)

(** C3.  In a session whose clock readings never go back, on every frame:
    [total_time], [present_time] and [focused_time] are not negative and do
    not decrease over the frame, and before and after the frame
    [present_time] and [focused_time] are at most [total_time]. *)
Theorem C3_elapsed_times_monotone (th : Thresholds) (t0 : Q) (g0 : Globals)
  (pre : list Frame) (fr : Frame) :
  nondecreasing_from t0 (pre ++ [fr]) ->
  exists g l g' l',
    run_detection th t0 g0 pre = Ok (g, l) /\
    loop_body th fr (g, l) = Ok (g', l') /\
    0 <= total_time l <= total_time l' /\
    0 <= present_time l <= present_time l' /\
    0 <= focused_time l <= focused_time l' /\
    present_time l <= total_time l /\
    focused_time l <= total_time l /\
    present_time l' <= total_time l' /\
    focused_time l' <= total_time l'.
Proof.
  intros Hnd.
  destruct (session_step_total th t0 g0 pre fr) as (g & l & g' & l' & Hrun & Hstep).
  exists g, l, g', l'. split; [exact Hrun|]. split; [exact Hstep|].
  unfold run_detection in Hrun.
  change t0 with (start_time (initial_locals t0)) in Hnd.
  destruct (nondecreasing_split _ _ _ _ _ _ _ Hnd Hrun) as [Hpre Hfr].
  simpl in Hfr. destruct Hfr as [Hle _].
  assert (H0 : 0 <= present_time (initial_locals t0) <= total_time (initial_locals t0) /\
               0 <= focused_time (initial_locals t0) <= total_time (initial_locals t0))
    by (simpl; lra).
  pose proof (times_invariant _ _ _ _ _ _ H0 Hpre Hrun) as HI.
  pose proof (times_step _ _ _ _ _ _ Hstep Hle) as HS.
  repeat split; lra.
Qed.

(** Scenario A read at 1, 2, ..., 20 by a session set up at 0. *)
Lemma C3_witness :
  nondecreasing_from 0 (firstn 19 scenario_A_frames ++ [focused_frame 20]) /\
  exists g l g' l',
    run_detection script_thresholds 0 globals_connected
      (firstn 19 scenario_A_frames) = Ok (g, l) /\
    loop_body script_thresholds (focused_frame 20) (g, l) = Ok (g', l') /\
    present_time l' <= total_time l'.
Proof.
  assert (Hnd : nondecreasing_from 0
                  (firstn 19 scenario_A_frames ++ [focused_frame 20])).
  { vm_compute. repeat split; discriminate. }
  split; [exact Hnd|].
  destruct (C3_elapsed_times_monotone script_thresholds 0 globals_connected
              (firstn 19 scenario_A_frames) (focused_frame 20) Hnd)
    as (g & l & g' & l' & Hrun & Hstep & _ & _ & _ & _ & _ & Hp & _).
  exists g, l, g', l'. auto.
Defined.

(* ===================================================================== *)
(** * Focus is only held while presence is *)
(* ===================================================================== *)

Lemma focus_needs_face (fr : Frame) :
  focus_detected fr = true -> face_detected fr = true.
Proof.
  unfold focus_detected, face_detected, detect.
  destruct (multi_face_landmarks fr); simpl; [reflexivity|discriminate].
Qed.

Lemma coupled_step (T : nat) (face focus : bool) (p f : Axis) :
  (0 < T)%nat ->
  (focus = true -> face = true) ->
  coupled T p f ->
  coupled T (debounce T face p) (debounce T focus f).
Proof.
  intros HT Himp. destruct p as [sp up dp], f as [sf uf df].
  unfold coupled, debounce. simpl.
  intros (H1 & H2 & H3 & H4 & H5).
  destruct face, focus; try (specialize (Himp eq_refl); discriminate);
    destruct sp, sf; simpl; rewrite ?andb_true_r, ?andb_false_r; simpl;
    repeat match goal with |- context [(?x <=? ?y)%nat] =>
      destruct (Nat.leb_spec x y) end; simpl;
    repeat split; intros; try reflexivity; try lia; try congruence;
    try (specialize (H5 eq_refl); discriminate);
    try (exfalso; assert (false = true) by (apply H3; lia); discriminate);
    try (exfalso; assert (true = false) by (apply H4; lia); discriminate).
Qed.

Lemma coupled_session (th : Thresholds) (t0 : Q) (g0 g : Globals)
  (frames : list Frame) (l : Locals) :
  (0 < presence_threshold th)%nat ->
  presence_threshold th = focus_threshold th ->
  run_detection th t0 g0 frames = Ok (g, l) ->
  coupled (presence_threshold th) (presence_axis l) (focus_axis l).
Proof.
  intros HT Heq. unfold run_detection.
  apply (loop_preserves th
           (fun l => coupled (presence_threshold th) (presence_axis l) (focus_axis l))).
  - clear g l. intros fr g l g' l' HI H.
    rewrite (presence_axis_step _ _ _ _ _ _ H), (focus_axis_step _ _ _ _ _ _ H).
    rewrite <- Heq. apply coupled_step; [exact HT|apply focus_needs_face|exact HI].
  - unfold coupled. simpl. repeat split; try lia; intros; try lia; discriminate.
Qed.

Lemma focused_le_present_step (th : Thresholds) (fr : Frame) (g g' : Globals)
  (l l' : Locals) :
  loop_body th fr (g, l) = Ok (g', l') ->
  start_time l <= current_time fr ->
  (is_focused l' = true -> is_present l' = true) ->
  focused_time l <= present_time l ->
  focused_time l' <= present_time l'.
Proof.
  intros H Hle Himp HI.
  pose proof (loop_body_inv _ _ _ _ _ _ H) as (_ & _ & _ & Hp & _ & Hf & _).
  rewrite Hp, Hf.
  destruct (is_focused l'); [rewrite (Himp eq_refl); lra|].
  destruct (is_present l'); lra.
Qed.

Lemma focused_le_present (th : Thresholds) (t0 : Q) (g0 g : Globals)
  (frames : list Frame) (l : Locals) :
  (0 < presence_threshold th)%nat ->
  presence_threshold th = focus_threshold th ->
  nondecreasing_from t0 frames ->
  run_detection th t0 g0 frames = Ok (g, l) ->
  0 <= focused_time l <= present_time l.
Proof.
  intros HT Heq Hnd Hrun.
  induction frames as [|fr pre IH] using rev_ind in g, l, Hnd, Hrun |- *.
  - unfold run_detection in Hrun. simpl in Hrun. inversion Hrun; subst.
    simpl. lra.
  - unfold run_detection in Hrun.
    destruct (loop_snoc_inv _ _ _ _ _ Hrun) as ([g1 l1] & Hpre & Hstep).
    change t0 with (start_time (initial_locals t0)) in Hnd.
    destruct (nondecreasing_split _ _ _ _ _ _ _ Hnd Hpre) as [Hnd1 Hnd2].
    simpl in Hnd2. destruct Hnd2 as [Hle _].
    specialize (IH _ _ Hnd1 Hpre).
    pose proof (coupled_session th t0 g0 g (pre ++ [fr]) l HT Heq Hrun)
      as (_ & _ & _ & _ & Himp).
    pose proof (focused_le_present_step _ _ _ _ _ _ Hstep Hle Himp).
    pose proof (times_step _ _ _ _ _ _ Hstep Hle).
    lra.
Qed.

(* ===================================================================== *)
(** * The scores *)
(* ===================================================================== *)

Lemma percentage_zero_den (num den q : Q) :
  den == 0 -> percentage num den = Ok q -> q = 0.
Proof.
  intros Hz. rewrite percentage_value.
  destruct (Qgt_bool den 0) eqn:E.
  - apply Qgt_bool_true in E. lra.
  - intros H. inversion H. reflexivity.
Qed.

Lemma percentage_zero_num (num den q : Q) :
  num == 0 -> percentage num den = Ok q -> q == 0.
Proof.
  intros Hz. rewrite percentage_value.
  destruct (Qgt_bool den 0) eqn:E; intros H; inversion H; subst.
  - rewrite Hz. unfold Qdiv. ring.
  - reflexivity.
Qed.

Lemma percentage_range (num den q : Q) :
  0 <= num -> num <= den -> percentage num den = Ok q -> 0 <= q <= 100.
Proof.
  intros H0 Hle. rewrite percentage_value.
  destruct (Qgt_bool den 0) eqn:E; intros H; inversion H; subst; [|lra].
  apply Qgt_bool_true in E.
  assert (Hlo : 0 <= num / den) by (apply Qle_shift_div_l; lra).
  assert (Hhi : num / den <= 1) by (apply Qle_shift_div_r; lra).
  lra.
Qed.

(** The scores held by the locals are those of the times held next to them. *)
Lemma session_scores (th : Thresholds) (t0 : Q) (g0 g : Globals)
  (frames : list Frame) (l : Locals) (sc : Scores) :
  run_detection th t0 g0 frames = Ok (g, l) ->
  scores l = Some sc ->
  compute_scores (total_time l) (present_time l) (focused_time l) = Ok sc.
Proof.
  intros Hrun Hsc. unfold run_detection in Hrun.
  destruct frames as [|fr pre _] using rev_ind.
  - simpl in Hrun. inversion Hrun; subst. discriminate.
  - destruct (loop_snoc_inv _ _ _ _ _ Hrun) as ([g1 l1] & _ & Hstep).
    pose proof (loop_body_inv _ _ _ _ _ _ Hstep)
      as (_ & _ & _ & _ & _ & _ & (sc' & Hsc' & Hc) & _).
    congruence.
Qed.

Lemma scores_in_range (t p f : Q) (sc : Scores) :
  0 <= f -> f <= p -> p <= t ->
  compute_scores t p f = Ok sc ->
  0 <= presence_score sc <= 100 /\
  0 <= focus_score sc <= 100 /\
  0 <= overall_score sc <= 100.
Proof.
  intros H0 Hfp Hpt H.
  destruct (compute_scores_inv _ _ _ _ H) as (Hp & Hf & Ho).
  split; [|split].
  - apply (percentage_range p t); [lra | exact Hpt | exact Hp].
  - apply (percentage_range f p); [exact H0 | exact Hfp | exact Hf].
  - apply (percentage_range f t); [exact H0 | lra | exact Ho].
Qed.

Lemma first_frame (th : Thresholds) (t0 : Q) (g0 g : Globals) (fr : Frame)
  (l : Locals) :
  run_detection th t0 g0 [fr] = Ok (g, l) ->
  total_time l = 0 + (current_time fr - t0) /\
  ((1 < presence_threshold th)%nat ->
   is_present l = false /\ present_time l = 0) /\
  ((1 < focus_threshold th)%nat ->
   is_focused l = false /\ focused_time l = 0) /\
  (exists sc, scores l = Some sc).
Proof.
  unfold run_detection. simpl.
  destruct (loop_body th fr (g0, initial_locals t0)) as [[g1 l1]|e] eqn:E;
    simpl; [|discriminate].
  intros H. inversion H; subst. clear H.
  pose proof (loop_body_inv _ _ _ _ _ _ E)
    as (_ & Ht & Hp & Hpt & Hf & Hft & (sc & Hsc & _) & _).
  split; [exact Ht|]. split; [|split; [|eauto]].
  - intros HT.
    assert (Hs : is_present l = false).
    { unfold presence_state_machine in Hp. simpl in Hp.
      destruct (face_detected fr).
      - destruct (Nat.leb_spec (presence_threshold th) 1); [lia|].
        simpl in Hp. inversion Hp. reflexivity.
      - rewrite andb_false_r in Hp. inversion Hp. reflexivity. }
    split; [exact Hs|]. rewrite Hpt, Hs. reflexivity.
  - intros HT.
    assert (Hs : is_focused l = false).
    { unfold focus_state_machine in Hf. simpl in Hf.
      destruct (focus_detected fr).
      - destruct (Nat.leb_spec (focus_threshold th) 1); [lia|].
        simpl in Hf. inversion Hf. reflexivity.
      - rewrite andb_false_r in Hf. inversion Hf. reflexivity. }
    split; [exact Hs|]. rewrite Hft, Hs. reflexivity.
Qed.

(* ===================================================================== *)
(** * C10: focused implies present *)
(* ===================================================================== *)

(** C10.  A frame carries a raw focus signal only if it carries a face.
    With one threshold above 0 for both axes (the script uses 10 for both),
    after every frame of every session [is_focused] implies [is_present];
    and when the clock readings never go back, [focused_time] is at most
    [present_time] and the focus score is at most 100. *)
Theorem C10_focused_implies_present (th : Thresholds) :
  (0 < presence_threshold th)%nat ->
  presence_threshold th = focus_threshold th ->
  forall t0 g0 frames, exists g l,
    run_detection th t0 g0 frames = Ok (g, l) /\
    (forall fr, focus_detected fr = true -> face_detected fr = true) /\
    (is_focused l = true -> is_present l = true) /\
    (nondecreasing_from t0 frames ->
     focused_time l <= present_time l /\
     forall sc, scores l = Some sc -> focus_score sc <= 100).
Proof.
  intros HT Heq t0 g0 frames.
  destruct (session_total th t0 g0 frames) as (g & l & Hrun).
  exists g, l. split; [exact Hrun|]. split; [exact focus_needs_face|].
  split.
  - pose proof (coupled_session _ _ _ _ _ _ HT Heq Hrun) as (_ & _ & _ & _ & H).
    exact H.
  - intros Hnd.
    pose proof (focused_le_present _ _ _ _ _ _ HT Heq Hnd Hrun) as Hfp.
    split; [lra|]. intros sc Hsc.
    pose proof (session_scores _ _ _ _ _ _ _ Hrun Hsc) as Hc.
    destruct (compute_scores_inv _ _ _ _ Hc) as (_ & Hf & _).
    apply (percentage_range (focused_time l) (present_time l)); [lra|lra|exact Hf].
Qed.

(** The script's thresholds, all of Scenario A. *)
Lemma C10_witness :
  (0 < presence_threshold script_thresholds)%nat /\
  presence_threshold script_thresholds = focus_threshold script_thresholds /\
  exists g l,
    run_detection script_thresholds 0 globals_connected scenario_A_frames
      = Ok (g, l) /\
    (is_focused l = true -> is_present l = true).
Proof.
  split; [simpl; lia|]. split; [reflexivity|].
  destruct (C10_focused_implies_present script_thresholds
              ltac:(simpl; lia) eq_refl 0 globals_connected scenario_A_frames)
    as (g & l & Hrun & _ & H & _).
  exists g, l. auto.
Defined.

(* ===================================================================== *)
(** * C4: the scores *)
(* ===================================================================== *)

(** C4.  Computing the three scores never raises, whatever the times are.
    A score whose denominator is 0 is exactly 0.  For times with
    [0 <= focused <= present <= total] every score lies between 0 and 100,
    and so does every score a session holds when its clock readings never
    go back and both axes use one threshold above 0.  After the first frame
    of a session with thresholds above 1 the three scores are 0. *)
Theorem C4_scores_in_range :
  (forall t p f, exists sc, compute_scores t p f = Ok sc) /\
  (forall t p f sc,
     compute_scores t p f = Ok sc ->
     (t == 0 -> presence_score sc = 0 /\ overall_score sc = 0) /\
     (p == 0 -> focus_score sc = 0)) /\
  (forall t p f sc,
     0 <= f -> f <= p -> p <= t ->
     compute_scores t p f = Ok sc ->
     0 <= presence_score sc <= 100 /\
     0 <= focus_score sc <= 100 /\
     0 <= overall_score sc <= 100) /\
  (forall th t0 g0 frames,
     (0 < presence_threshold th)%nat ->
     presence_threshold th = focus_threshold th ->
     nondecreasing_from t0 frames ->
     exists g l,
       run_detection th t0 g0 frames = Ok (g, l) /\
       forall sc, scores l = Some sc ->
         0 <= presence_score sc <= 100 /\
         0 <= focus_score sc <= 100 /\
         0 <= overall_score sc <= 100) /\
  (forall th t0 g0 fr,
     (1 < presence_threshold th)%nat ->
     (1 < focus_threshold th)%nat ->
     exists g l sc,
       run_detection th t0 g0 [fr] = Ok (g, l) /\
       scores l = Some sc /\
       presence_score sc == 0 /\
       focus_score sc == 0 /\
       overall_score sc == 0).
Proof.
  split; [exact compute_scores_total|].
  split; [|split; [exact scores_in_range|split]].
  - intros t p f sc H.
    destruct (compute_scores_inv _ _ _ _ H) as (Hp & Hf & Ho).
    split; [intros Hz; split|intros Hz].
    + exact (percentage_zero_den _ _ _ Hz Hp).
    + exact (percentage_zero_den _ _ _ Hz Ho).
    + exact (percentage_zero_den _ _ _ Hz Hf).
  - intros th t0 g0 frames HT Heq Hnd.
    destruct (session_total th t0 g0 frames) as (g & l & Hrun).
    exists g, l. split; [exact Hrun|]. intros sc Hsc.
    pose proof (focused_le_present _ _ _ _ _ _ HT Heq Hnd Hrun) as Hfp.
    assert (Hpt : 0 <= present_time l <= total_time l /\
                  0 <= focused_time l <= total_time l).
    { unfold run_detection in Hrun.
      apply (times_invariant th frames g0 g (initial_locals t0) l);
        [simpl; lra | exact Hnd | exact Hrun]. }
    apply (scores_in_range (total_time l) (present_time l) (focused_time l));
      [lra | lra | lra |].
    exact (session_scores _ _ _ _ _ _ _ Hrun Hsc).
  - intros th t0 g0 fr HTp HTf.
    destruct (session_total th t0 g0 [fr]) as (g & l & Hrun).
    pose proof (first_frame _ _ _ _ _ _ Hrun) as (_ & Hp & Hf & (sc & Hsc)).
    destruct (Hp HTp) as [_ Hp0]. destruct (Hf HTf) as [_ Hf0].
    exists g, l, sc. split; [exact Hrun|]. split; [exact Hsc|].
    pose proof (session_scores _ _ _ _ _ _ _ Hrun Hsc) as Hc.
    rewrite Hp0, Hf0 in Hc.
    destruct (compute_scores_inv _ _ _ _ Hc) as (H1 & H2 & H3).
    split; [|split].
    + apply (percentage_zero_num 0 (total_time l)); [reflexivity|exact H1].
    + rewrite (percentage_zero_den 0 0 _ (Qeq_refl 0) H2). reflexivity.
    + apply (percentage_zero_num 0 (total_time l)); [reflexivity|exact H3].
Qed.

(* ===================================================================== *)
(** * C8: the first frame *)
(* ===================================================================== *)

(** C8, as the script behaves.  On the first frame [time_diff] is the clock
    reading of the frame minus the reading taken when the session was set
    up; [total_time] after the first frame is that difference, hence 0 only
    when the two readings are equal; with thresholds above 1 neither
    [present_time] nor [focused_time] has accrued anything. *)
Theorem C8_first_frame_times (th : Thresholds) (t0 : Q) (g0 : Globals)
  (fr : Frame) :
  exists g l,
    run_detection th t0 g0 [fr] = Ok (g, l) /\
    total_time l == current_time fr - t0 /\
    (total_time l == 0 <-> current_time fr == t0) /\
    ((1 < presence_threshold th)%nat -> present_time l = 0) /\
    ((1 < focus_threshold th)%nat -> focused_time l = 0).
Proof.
  destruct (session_total th t0 g0 [fr]) as (g & l & Hrun).
  exists g, l. split; [exact Hrun|].
  pose proof (first_frame _ _ _ _ _ _ Hrun) as (Ht & Hp & Hf & _).
  rewrite Ht. split; [lra|]. split; [split; lra|].
  split; intros HT; [apply Hp | apply Hf]; exact HT.
Qed.

(** C8 as stated fails: the session is set up at clock reading 0 and its
    first frame is read at 1; [total_time] is then 1, not 0. *)
Lemma C8_counterexample :
  exists g l,
    run_detection script_thresholds 0 globals_connected [empty_frame 1]
      = Ok (g, l) /\
    total_time l == 1 /\
    ~ total_time l == 0.
Proof.
  eexists. eexists. split; [vm_compute; reflexivity|].
  split; [reflexivity|]. intros H. vm_compute in H. discriminate.
Qed.

(* ===================================================================== *)
(** * The interval log *)
(* ===================================================================== *)

(** What one iteration does to the absence log and its pending slot. *)
Lemma absence_log_step (th : Thresholds) (fr : Frame) (g g' : Globals)
  (l l' : Locals) :
  loop_body th fr (g, l) = Ok (g', l') ->
  (absence_events l', current_absence l')
  = if negb (is_present l) && is_present l' then
      match current_absence l with
      | Some since =>
          (absence_events l
           ++ [mkEvent since (current_time fr) (current_time fr - since)],
           None)
      | None => (absence_events l, None)
      end
    else if is_present l && negb (is_present l') then
      (absence_events l, Some (current_time fr))
    else (absence_events l, current_absence l).
Proof.
  intros H. apply loop_body_inv in H. destruct H as (_ & _ & Hp & _).
  unfold presence_state_machine in Hp.
  destruct (face_detected fr);
    [ destruct ((presence_threshold th <=? S (presence_counter l))%nat);
      destruct (is_present l); simpl in Hp;
      [ | destruct (current_absence l) eqn:Hc | | ]
    | destruct ((presence_threshold th <=? S (absence_counter l))%nat);
      destruct (is_present l); simpl in Hp ];
    injection Hp; intros E5 E4 E3 _ _; rewrite E3, E4, E5; reflexivity.
Qed.

(** What one iteration does to the distraction log and its pending slot. *)
Lemma distraction_log_step (th : Thresholds) (fr : Frame) (g g' : Globals)
  (l l' : Locals) :
  loop_body th fr (g, l) = Ok (g', l') ->
  (distraction_events l', current_distraction l')
  = if negb (is_focused l) && is_focused l' then
      match current_distraction l with
      | Some since =>
          (distraction_events l
           ++ [mkEvent since (current_time fr) (current_time fr - since)],
           None)
      | None => (distraction_events l, None)
      end
    else if is_focused l && negb (is_focused l') then
      (distraction_events l, Some (current_time fr))
    else (distraction_events l, current_distraction l).
Proof.
  intros H. apply loop_body_inv in H. destruct H as (_ & _ & _ & _ & Hf & _).
  unfold focus_state_machine in Hf.
  destruct (focus_detected fr);
    [ destruct ((focus_threshold th <=? S (focus_counter l))%nat);
      destruct (is_focused l); simpl in Hf;
      [ | destruct (current_distraction l) eqn:Hc | | ]
    | destruct ((focus_threshold th <=? S (distraction_counter l))%nat);
      destruct (is_focused l); simpl in Hf ];
    injection Hf; intros E5 E4 E3 _ _; rewrite E3, E4, E5; reflexivity.
Qed.

Lemma loop_preserves_increasing (th : Thresholds) (P : Locals -> Prop) :
  (forall fr g l g' l',
     P l -> start_time l < current_time fr ->
     loop_body th fr (g, l) = Ok (g', l') -> P l') ->
  forall frames g l g' l',
    P l -> increasing_from (start_time l) frames ->
    loop th frames (g, l) = Ok (g', l') -> P l'.
Proof.
  intros Hstep. induction frames as [|fr rest IH]; intros g l g' l' HP Hnd; simpl.
  - intros H. inversion H; subst. exact HP.
  - destruct (loop_body th fr (g, l)) as [[g1 l1]|e] eqn:E; simpl; [|discriminate].
    intros H. simpl in Hnd. destruct Hnd as [Hle Hnd].
    pose proof (loop_body_inv _ _ _ _ _ _ E) as (Hst & _).
    rewrite <- Hst in Hnd.
    eapply IH; [|exact Hnd|exact H]. eapply Hstep; eauto.
Qed.

(** One iteration keeps the invariant of the logs, for clock readings
    related by [S] from one frame to the next. *)
Lemma log_step (th : Thresholds) (R S : Q -> Q -> Prop) :
  (forall a b c, a <= b -> S b c -> R a c) ->
  (forall b c, S b c -> b <= c) ->
  forall fr g l g' l',
    log_invariant R l ->
    S (start_time l) (current_time fr) ->
    loop_body th fr (g, l) = Ok (g', l') ->
    log_invariant R l'.
Proof.
  intros HR HS fr g l g' l' (Ha & Hd & Hae & Hde) Hclock H.
  pose proof (absence_log_step _ _ _ _ _ _ H) as La.
  pose proof (distraction_log_step _ _ _ _ _ _ H) as Ld.
  pose proof (loop_body_inv _ _ _ _ _ _ H) as (Hst & _).
  pose proof (HS _ _ Hclock) as Hle.
  unfold log_invariant. rewrite Hst.
  assert (Pa : (forall since, current_absence l' = Some since ->
                  since <= current_time fr) /\
               Forall (closed_event R) (absence_events l')).
  { destruct (negb (is_present l) && is_present l').
    - destruct (current_absence l) as [since|] eqn:Hc;
        injection La; intros E2 E1; rewrite E1, E2;
        (split; [discriminate|]); [|exact Hae].
      apply Forall_app. split; [exact Hae|]. constructor; [|constructor].
      split; simpl; [|reflexivity]. apply (HR _ (start_time l)); auto.
    - destruct (is_present l && negb (is_present l'));
        injection La; intros E2 E1; rewrite E1, E2; (split; [|exact Hae]).
      + intros since E. inversion E; subst. lra.
      + intros since E. specialize (Ha _ E). lra. }
  assert (Pd : (forall since, current_distraction l' = Some since ->
                  since <= current_time fr) /\
               Forall (closed_event R) (distraction_events l')).
  { destruct (negb (is_focused l) && is_focused l').
    - destruct (current_distraction l) as [since|] eqn:Hc;
        injection Ld; intros E2 E1; rewrite E1, E2;
        (split; [discriminate|]); [|exact Hde].
      apply Forall_app. split; [exact Hde|]. constructor; [|constructor].
      split; simpl; [|reflexivity]. apply (HR _ (start_time l)); auto.
    - destruct (is_focused l && negb (is_focused l'));
        injection Ld; intros E2 E1; rewrite E1, E2; (split; [|exact Hde]).
      + intros since E. inversion E; subst. lra.
      + intros since E. specialize (Hd _ E). lra. }
  tauto.
Qed.

Lemma log_initial (R : Q -> Q -> Prop) (t0 : Q) :
  log_invariant R (initial_locals t0).
Proof.
  unfold log_invariant. simpl.
  repeat split; try discriminate; constructor.
Qed.

Lemma log_nondecreasing (th : Thresholds) (t0 : Q) (g0 g : Globals)
  (frames : list Frame) (l : Locals) :
  nondecreasing_from t0 frames ->
  run_detection th t0 g0 frames = Ok (g, l) ->
  log_invariant Qle l.
Proof.
  intros Hnd Hrun. unfold run_detection in Hrun.
  refine (loop_preserves_chrono th (log_invariant Qle) _
            frames g0 (initial_locals t0) g l (log_initial _ _) Hnd Hrun).
  intros fr g1 l1 g2 l2 HI Hle H.
  refine (log_step th Qle Qle _ _ fr g1 l1 g2 l2 HI Hle H); intros; lra.
Qed.

Lemma log_increasing (th : Thresholds) (t0 : Q) (g0 g : Globals)
  (frames : list Frame) (l : Locals) :
  increasing_from t0 frames ->
  run_detection th t0 g0 frames = Ok (g, l) ->
  log_invariant Qlt l.
Proof.
  intros Hnd Hrun. unfold run_detection in Hrun.
  refine (loop_preserves_increasing th (log_invariant Qlt) _
            frames g0 (initial_locals t0) g l (log_initial _ _) Hnd Hrun).
  intros fr g1 l1 g2 l2 HI Hle H.
  refine (log_step th Qlt Qlt _ _ fr g1 l1 g2 l2 HI Hle H); intros; lra.
Qed.

(** Whatever the clock does, a logged duration is the difference of the two
    logged ends. *)
Lemma log_durations (th : Thresholds) (t0 : Q) (g0 g : Globals)
  (frames : list Frame) (l : Locals) :
  run_detection th t0 g0 frames = Ok (g, l) ->
  Forall (closed_event (fun _ _ => True)) (absence_events l) /\
  Forall (closed_event (fun _ _ => True)) (distraction_events l).
Proof.
  intros Hrun. unfold run_detection in Hrun.
  refine (loop_preserves th
            (fun l => Forall (closed_event (fun _ _ => True)) (absence_events l) /\
                      Forall (closed_event (fun _ _ => True)) (distraction_events l))
            _ frames g0 (initial_locals t0) g l _ Hrun).
  - clear. intros fr g l g' l' [Ha Hd] H.
    pose proof (absence_log_step _ _ _ _ _ _ H) as La.
    pose proof (distraction_log_step _ _ _ _ _ _ H) as Ld.
    split.
    + destruct (negb (is_present l) && is_present l');
        [destruct (current_absence l)
        |destruct (is_present l && negb (is_present l'))];
        injection La; intros _ E1; rewrite E1; try exact Ha.
      apply Forall_app. split; [exact Ha|].
      constructor; [|constructor]. split; simpl; [exact I|reflexivity].
    + destruct (negb (is_focused l) && is_focused l');
        [destruct (current_distraction l)
        |destruct (is_focused l && negb (is_focused l'))];
        injection Ld; intros _ E1; rewrite E1; try exact Hd.
      apply Forall_app. split; [exact Hd|].
      constructor; [|constructor]. split; simpl; [exact I|reflexivity].
  - simpl. split; constructor.
Qed.

(* ===================================================================== *)
(** * C2: closing an interval *)
(* ===================================================================== *)

(** C2, as the script behaves.  On a frame where [is_present] goes from
    false to true while an absence interval opened at [since] is pending,
    exactly one event is appended to [absence_events], with end equal to
    the clock reading of the frame and duration equal to that reading minus
    [since], and the pending slot is cleared; on any other frame
    [absence_events] is left alone.  The distraction log behaves the same
    way on [is_focused].  Every logged event has a duration equal to its
    end minus its start; its end is not before its start when the clock
    readings never go back, and is after its start when the clock readings
    advance from each frame to the next. *)
Theorem C2_interval_closed_on_return (th : Thresholds) :
  (forall fr g l, exists g' l',
     loop_body th fr (g, l) = Ok (g', l') /\
     (forall since,
        is_present l = false -> is_present l' = true ->
        current_absence l = Some since ->
        absence_events l'
        = absence_events l
          ++ [mkEvent since (current_time fr) (current_time fr - since)] /\
        current_absence l' = None) /\
     (~ (is_present l = false /\ is_present l' = true) ->
      absence_events l' = absence_events l) /\
     (forall since,
        is_focused l = false -> is_focused l' = true ->
        current_distraction l = Some since ->
        distraction_events l'
        = distraction_events l
          ++ [mkEvent since (current_time fr) (current_time fr - since)] /\
        current_distraction l' = None) /\
     (~ (is_focused l = false /\ is_focused l' = true) ->
      distraction_events l' = distraction_events l)) /\
  (forall t0 g0 frames, exists g l,
     run_detection th t0 g0 frames = Ok (g, l) /\
     (forall e, In e (absence_events l ++ distraction_events l) ->
        duration e = end_ts e - start_ts e) /\
     (nondecreasing_from t0 frames ->
      forall e, In e (absence_events l ++ distraction_events l) ->
        start_ts e <= end_ts e) /\
     (increasing_from t0 frames ->
      forall e, In e (absence_events l ++ distraction_events l) ->
        start_ts e < end_ts e)).
Proof.
  split.
  - intros fr g l.
    destruct (loop_body_total th fr (g, l)) as [[g' l'] H].
    exists g', l'. split; [exact H|].
    pose proof (absence_log_step _ _ _ _ _ _ H) as La.
    pose proof (distraction_log_step _ _ _ _ _ _ H) as Ld.
    split; [|split; [|split]].
    + intros since Hl Hl' Hc. rewrite Hl, Hl', Hc in La. simpl in La.
      injection La; auto.
    + intros Hn.
      destruct (is_present l), (is_present l'); simpl in La;
        try (exfalso; apply Hn; split; reflexivity);
        injection La; auto.
    + intros since Hl Hl' Hc. rewrite Hl, Hl', Hc in Ld. simpl in Ld.
      injection Ld; auto.
    + intros Hn.
      destruct (is_focused l), (is_focused l'); simpl in Ld;
        try (exfalso; apply Hn; split; reflexivity);
        injection Ld; auto.
  - intros t0 g0 frames.
    destruct (session_total th t0 g0 frames) as (g & l & Hrun).
    exists g, l. split; [exact Hrun|]. split; [|split].
    + intros e He.
      destruct (log_durations _ _ _ _ _ _ Hrun) as [Ha Hd].
      pose proof (proj2 (Forall_app _ _ _) (conj Ha Hd)) as Hall.
      rewrite Forall_forall in Hall. exact (proj2 (Hall e He)).
    + intros Hnd e He.
      destruct (log_nondecreasing _ _ _ _ _ _ Hnd Hrun) as (_ & _ & Ha & Hd).
      pose proof (proj2 (Forall_app _ _ _) (conj Ha Hd)) as Hall.
      rewrite Forall_forall in Hall. exact (proj1 (Hall e He)).
    + intros Hnd e He.
      destruct (log_increasing _ _ _ _ _ _ Hnd Hrun) as (_ & _ & Ha & Hd).
      pose proof (proj2 (Forall_app _ _ _) (conj Ha Hd)) as Hall.
      rewrite Forall_forall in Hall. exact (proj1 (Hall e He)).
Qed.

(** C2 as stated fails: with clock readings that never go back but stand
    still at 2 while the user leaves and returns, the logged absence starts
    and ends at 2, so its end is not after its start. *)
Lemma C2_counterexample :
  nondecreasing_from 0 stalled_clock_frames /\
  exists g l e,
    run_detection script_thresholds 0 globals_connected stalled_clock_frames
      = Ok (g, l) /\
    absence_events l = [e] /\
    start_ts e == 2 /\ end_ts e == 2 /\
    ~ start_ts e < end_ts e.
Proof.
  split.
  - vm_compute. repeat split; discriminate.
  - eexists. eexists. eexists. split; [vm_compute; reflexivity|].
    split; [reflexivity|]. split; [reflexivity|]. split; [reflexivity|].
    intros H. vm_compute in H. discriminate.
Qed.

(* ===================================================================== *)
(** * The actuator link *)
(* ===================================================================== *)

Lemma attempts_app (xs ys : list line) :
  attempts (xs ++ ys) = attempts xs ++ attempts ys.
Proof.
  induction xs as [|x xs IH]; simpl; [reflexivity|].
  destruct x; simpl; rewrite IH; reflexivity.
Qed.

(** A send on a link that is up: one attempt, logged either way; the byte
    reaches the device only when the write goes through. *)
Lemma send_up (w : bool) (c : ascii) (g : Globals) :
  link_up g = true ->
  stdout (send_to_arduino w c g)
    = stdout g ++ [if w then Sent c else ErrorSending c] /\
  attempts (stdout (send_to_arduino w c g)) = attempts (stdout g) ++ [c] /\
  received (send_to_arduino w c g)
    = (if w then received g ++ [c] else received g) /\
  link_up (send_to_arduino w c g) = true.
Proof.
  unfold link_up, send_to_arduino, received, Serial_write.
  destruct (arduino g) as [ser|] eqn:Ea; [|discriminate].
  intros Hc. rewrite Hc.
  destruct w; simpl; rewrite ?Ea, ?attempts_app; simpl; auto.
Qed.

(** A send on a link that is down does nothing. *)
Lemma send_down (w : bool) (c : ascii) (g : Globals) :
  link_up g = false -> send_to_arduino w c g = g.
Proof.
  unfold link_up, send_to_arduino.
  destruct (arduino g); [|reflexivity].
  intros ->. reflexivity.
Qed.

Lemma connect_failed (g0 : Globals) :
  snd (connect_to_arduino false g0) = false /\
  arduino_connected (fst (connect_to_arduino false g0)) = false /\
  link_up (fst (connect_to_arduino false g0)) = false.
Proof.
  unfold connect_to_arduino, link_up. simpl.
  destruct (arduino g0); auto.
Qed.

(** A property of globals and locals kept by every iteration on a frame
    that satisfies [F] holds after the whole loop. *)
Lemma loop_invariant (th : Thresholds) (F : Frame -> Prop)
  (P : Globals -> Locals -> Prop) :
  (forall fr g l g' l',
     F fr -> P g l -> loop_body th fr (g, l) = Ok (g', l') -> P g' l') ->
  forall frames g l g' l',
    Forall F frames -> P g l ->
    loop th frames (g, l) = Ok (g', l') -> P g' l'.
Proof.
  intros Hstep. induction frames as [|fr rest IH]; intros g l g' l' HF HP; simpl.
  - intros H. inversion H; subst. exact HP.
  - destruct (loop_body th fr (g, l)) as [[g1 l1]|e] eqn:E; simpl; [|discriminate].
    intros H. inversion HF; subst.
    eapply IH; [eassumption| |exact H]. eapply Hstep; eauto.
Qed.

(** The locals computed by an iteration do not depend on the link. *)
Lemma loop_body_locals (th : Thresholds) (fr : Frame) (g1 g2 : Globals)
  (l : Locals) :
  exists g1' g2' l',
    loop_body th fr (g1, l) = Ok (g1', l') /\
    loop_body th fr (g2, l) = Ok (g2', l').
Proof.
  unfold loop_body.
  destruct (detect _) as [face focus].
  destruct (presence_state_machine _ _ _ _) as [[[[pc ac] p] pe] pa].
  destruct (focus_state_machine _ _ _ _) as [[[[fc dc] f] de] da].
  match goal with |- context [compute_scores ?t ?p ?f] =>
    destruct (compute_scores_total t p f) as [sc ->] end.
  simpl. eauto.
Qed.

Lemma loop_locals (th : Thresholds) (frames : list Frame) (g1 g2 : Globals)
  (l : Locals) :
  exists g1' g2' l',
    loop th frames (g1, l) = Ok (g1', l') /\
    loop th frames (g2, l) = Ok (g2', l').
Proof.
  revert g1 g2 l. induction frames as [|fr rest IH]; intros g1 g2 l; simpl.
  - exists g1, g2, l. auto.
  - destruct (loop_body_locals th fr g1 g2 l) as (a1 & a2 & l1 & -> & ->).
    simpl. apply IH.
Qed.

(** On a link that is down the loop leaves the globals alone. *)
Lemma loop_link_down (th : Thresholds) (frames : list Frame) (g g' : Globals)
  (l l' : Locals) :
  link_up g = false ->
  loop th frames (g, l) = Ok (g', l') ->
  g' = g.
Proof.
  intros Hdown H.
  refine (loop_invariant th (fun _ => True) (fun g1 _ => g1 = g) _
            frames g l g' l' _ eq_refl H).
  - clear - Hdown. intros fr g1 l1 g2 l2 _ -> Hs.
    pose proof (loop_body_inv _ _ _ _ _ _ Hs) as Hinv.
    destruct Hinv as (_ & _ & _ & _ & _ & _ & _ & _ & Hg).
    rewrite Hg. destruct (differs _ _); [apply send_down; exact Hdown|reflexivity].
  - apply Forall_forall. auto.
Qed.

(** What one iteration adds to the attempts on a link that is up. *)
Lemma attempts_step (th : Thresholds) (fr : Frame) (g g' : Globals)
  (l l' : Locals) :
  loop_body th fr (g, l) = Ok (g', l') ->
  link_up g = true ->
  link_up g' = true /\
  attempts (stdout g')
  = attempts (stdout g)
    ++ (if differs (arduino_state (is_present l') (is_focused l'))
             (last_arduino_state l)
        then [arduino_state (is_present l') (is_focused l')]
        else []) /\
  received g'
  = received g
    ++ (if differs (arduino_state (is_present l') (is_focused l'))
             (last_arduino_state l) && write_ok fr
        then [arduino_state (is_present l') (is_focused l')]
        else []).
Proof.
  intros H Hup.
  pose proof (loop_body_inv _ _ _ _ _ _ H)
    as (_ & _ & _ & _ & _ & _ & _ & _ & Hg).
  rewrite Hg. destruct (differs _ _); simpl.
  - destruct (send_up (write_ok fr)
                (arduino_state (is_present l') (is_focused l')) g Hup)
      as (_ & Ha & Hr & Hu).
    rewrite Ha, Hr. split; [exact Hu|]. split; [reflexivity|].
    destruct (write_ok fr); [reflexivity|]. rewrite app_nil_r. reflexivity.
  - rewrite !app_nil_r. auto.
Qed.

Lemma no_repeat_snoc (xs : list ascii) (c : ascii) :
  no_repeat xs ->
  (forall d, hd_error (rev xs) = Some d -> d <> c) ->
  no_repeat (xs ++ [c]).
Proof.
  induction xs as [|a xs IH]; intros Hn Hlast; [exact I|].
  destruct xs as [|b xs].
  - simpl. split; [|exact I]. apply Hlast. reflexivity.
  - destruct Hn as [Hab Hn]. change ((a :: b :: xs) ++ [c])
      with (a :: ((b :: xs) ++ [c])).
    simpl. split; [exact Hab|]. apply IH; [exact Hn|].
    intros d Hd. apply Hlast.
    change (a :: b :: xs) with ([a] ++ (b :: xs)).
    rewrite rev_app_distr.
    destruct (rev (b :: xs)) as [|r rs] eqn:Er; [discriminate|].
    simpl in *. exact Hd.
Qed.

(** Over a session that starts without attempts: no two attempts in a row
    carry the same code, and the last attempt is [last_arduino_state]. *)
Lemma attempts_invariant (th : Thresholds) (t0 : Q) (g0 g : Globals)
  (frames : list Frame) (l : Locals) :
  attempts (stdout g0) = [] ->
  run_detection th t0 g0 frames = Ok (g, l) ->
  no_repeat (attempts (stdout g)) /\
  (forall d, hd_error (rev (attempts (stdout g))) = Some d ->
     last_arduino_state l = Some d).
Proof.
  intros H0 Hrun. unfold run_detection in Hrun.
  destruct (link_up g0) eqn:Hup.
  - refine (proj2 (loop_invariant th (fun _ => True)
              (fun g l => link_up g = true /\
                 no_repeat (attempts (stdout g)) /\
                 (forall d, hd_error (rev (attempts (stdout g))) = Some d ->
                    last_arduino_state l = Some d))
              _ frames g0 (initial_locals t0) g l _ _ Hrun)).
    + clear. intros fr g l g' l' _ (Hup & Hn & Hlast) H.
      destruct (attempts_step _ _ _ _ _ _ H Hup) as (Hup' & Ha & _).
      pose proof (loop_body_inv _ _ _ _ _ _ H)
        as (_ & _ & _ & _ & _ & _ & _ & Hl & _).
      split; [exact Hup'|]. rewrite Ha.
      destruct (differs _ _) eqn:Ed.
      * split.
        -- apply no_repeat_snoc; [exact Hn|]. intros d Hd E. subst d.
           apply differs_spec in Ed. apply Ed. apply Hlast. exact Hd.
        -- intros d. rewrite rev_app_distr. simpl. intros E.
           inversion E; subst. exact Hl.
      * rewrite app_nil_r. split; [exact Hn|].
        intros d Hd. apply differs_false in Ed.
        rewrite (Hlast d Hd) in Ed. congruence.
    + apply Forall_forall. auto.
    + rewrite H0. simpl. repeat split; [exact Hup|discriminate].
  - rewrite (loop_link_down _ _ _ _ _ _ Hup Hrun), H0. simpl.
    split; [exact I|discriminate].
Qed.

(** When every write goes through, the device receives the attempts. *)
Lemma received_all (th : Thresholds) (t0 : Q) (g0 g : Globals)
  (frames : list Frame) (l : Locals) :
  received g0 = attempts (stdout g0) ->
  Forall (fun fr => write_ok fr = true) frames ->
  run_detection th t0 g0 frames = Ok (g, l) ->
  received g = attempts (stdout g).
Proof.
  intros H0 Hok Hrun. unfold run_detection in Hrun.
  destruct (link_up g0) eqn:Hup.
  - refine (proj2 (loop_invariant th (fun fr => write_ok fr = true)
              (fun g _ => link_up g = true /\ received g = attempts (stdout g))
              _ frames g0 (initial_locals t0) g l Hok (conj Hup H0) Hrun)).
    clear. intros fr g l g' l' Hw (Hup & HI) H.
    destruct (attempts_step _ _ _ _ _ _ H Hup) as (Hup' & Ha & Hr).
    split; [exact Hup'|]. rewrite Ha, Hr, Hw, andb_true_r, HI. reflexivity.
  - rewrite (loop_link_down _ _ _ _ _ _ Hup Hrun). exact H0.
Qed.

(* ===================================================================== *)
(** * C5: the command and its deduplication *)
(* ===================================================================== *)

(** C5.  On every frame the command is ['A'] when [is_present] is false,
    else ['F'] when [is_focused] is true, else ['D'], and it becomes
    [last_arduino_state].  [send_to_arduino] is called with it exactly when
    it differs from the previous [last_arduino_state]: then, on a link that
    is up, one attempt with that code is made; otherwise the globals are
    left alone.  Over a session that starts with the connection attempt, no
    two attempts in a row carry the same code, and when every write goes
    through the device never receives the same code twice in a row. *)
Theorem C5_command_priority_and_dedup (th : Thresholds) :
  (forall fr g l, exists g' l',
     loop_body th fr (g, l) = Ok (g', l') /\
     let desired := arduino_state (is_present l') (is_focused l') in
     (is_present l' = false -> desired = "A"%char) /\
     (is_present l' = true -> is_focused l' = true -> desired = "F"%char) /\
     (is_present l' = true -> is_focused l' = false -> desired = "D"%char) /\
     last_arduino_state l' = Some desired /\
     (last_arduino_state l = Some desired -> g' = g) /\
     (last_arduino_state l <> Some desired ->
      g' = send_to_arduino (write_ok fr) desired g /\
      (link_up g = true ->
       attempts (stdout g') = attempts (stdout g) ++ [desired]))) /\
  (forall port_ok t0 frames, exists g l,
     run_detection th t0 (fst (connect_to_arduino port_ok module_globals))
       frames = Ok (g, l) /\
     no_repeat (attempts (stdout g)) /\
     (Forall (fun fr => write_ok fr = true) frames -> no_repeat (received g))).
Proof.
  split.
  - intros fr g l.
    destruct (loop_body_total th fr (g, l)) as [[g' l'] H].
    exists g', l'. split; [exact H|]. cbv zeta.
    pose proof (loop_body_inv _ _ _ _ _ _ H)
      as (_ & _ & _ & _ & _ & _ & _ & Hl & Hg).
    split; [intros ->; reflexivity|].
    split; [intros -> ->; reflexivity|].
    split; [intros -> ->; reflexivity|].
    split; [exact Hl|]. split.
    + intros E. apply differs_false in E. rewrite E in Hg. exact Hg.
    + intros E. apply differs_spec in E. rewrite E in Hg.
      split; [exact Hg|]. intros Hup.
      rewrite Hg. apply send_up. exact Hup.
  - intros port_ok t0 frames.
    destruct (session_total th t0 (fst (connect_to_arduino port_ok module_globals))
                frames) as (g & l & Hrun).
    exists g, l. split; [exact Hrun|].
    assert (H0 : attempts (stdout (fst (connect_to_arduino port_ok module_globals))) = [])
      by (destruct port_ok; reflexivity).
    assert (Hr : received (fst (connect_to_arduino port_ok module_globals))
                 = attempts (stdout (fst (connect_to_arduino port_ok module_globals))))
      by (destruct port_ok; reflexivity).
    pose proof (attempts_invariant _ _ _ _ _ _ H0 Hrun) as [Hn _].
    split; [exact Hn|]. intros Hok.
    rewrite (received_all _ _ _ _ _ _ Hr Hok Hrun). exact Hn.
Qed.

(* ===================================================================== *)
(** * C6: a write that fails *)
(* ===================================================================== *)

(** C6, as the script behaves.  When the command differs from
    [last_arduino_state] and the write raises on a link that is up, the
    iteration still completes, the failure is printed, nothing reaches the
    device and the link stays up; [last_arduino_state] is set to the
    command all the same, so on a following frame with the same command
    nothing is sent again. *)
Theorem C6_failed_write_is_not_retried (th : Thresholds) (fr : Frame)
  (g : Globals) (l : Locals) :
  link_up g = true ->
  write_ok fr = false ->
  exists g' l',
    loop_body th fr (g, l) = Ok (g', l') /\
    let desired := arduino_state (is_present l') (is_focused l') in
    (last_arduino_state l <> Some desired ->
     stdout g' = stdout g ++ [ErrorSending desired] /\
     received g' = received g /\
     link_up g' = true /\
     last_arduino_state l' = Some desired /\
     forall fr2, exists g2 l2,
       loop_body th fr2 (g', l') = Ok (g2, l2) /\
       (arduino_state (is_present l2) (is_focused l2) = desired ->
        g2 = g' /\ last_arduino_state l2 = Some desired)).
Proof.
  intros Hup Hw.
  destruct (loop_body_total th fr (g, l)) as [[g' l'] H].
  exists g', l'. split; [exact H|]. cbv zeta. intros Hd.
  pose proof (loop_body_inv _ _ _ _ _ _ H)
    as (_ & _ & _ & _ & _ & _ & _ & Hl & Hg).
  apply differs_spec in Hd. rewrite Hd, Hw in Hg.
  destruct (send_up false (arduino_state (is_present l') (is_focused l')) g Hup)
    as (Hs & _ & Hr & Hu).
  rewrite <- Hg in Hs, Hr, Hu.
  split; [exact Hs|]. split; [exact Hr|]. split; [exact Hu|].
  split; [exact Hl|].
  intros fr2.
  destruct (loop_body_total th fr2 (g', l')) as [[g2 l2] H2].
  exists g2, l2. split; [exact H2|]. intros Esame.
  pose proof (loop_body_inv _ _ _ _ _ _ H2)
    as (_ & _ & _ & _ & _ & _ & _ & Hl2 & Hg2).
  rewrite Esame in Hg2, Hl2. split; [|exact Hl2].
  rewrite Hl in Hg2.
  assert (Ed : differs (arduino_state (is_present l') (is_focused l'))
                 (Some (arduino_state (is_present l') (is_focused l'))) = false)
    by (apply differs_false; reflexivity).
  rewrite Ed in Hg2. exact Hg2.
Qed.

(** The first frame of a session on a connected link whose write raises. *)
Lemma C6_witness :
  link_up globals_connected = true /\
  write_ok (unplugged_frame 1) = false /\
  exists g' l',
    loop_body script_thresholds (unplugged_frame 1)
      (globals_connected, initial_locals 0) = Ok (g', l') /\
    last_arduino_state l' = Some "A"%char.
Proof.
  split; [reflexivity|]. split; [reflexivity|].
  destruct (C6_failed_write_is_not_retried script_thresholds (unplugged_frame 1)
              globals_connected (initial_locals 0) eq_refl eq_refl)
    as (g' & l' & H & Hrest).
  exists g', l'. split; [exact H|].
  vm_compute in H. inversion H. reflexivity.
Defined.

(** C6 as stated fails: on a connected link the first write of ['A'] raises;
    [last_arduino_state] goes from [None] to ['A'], and on the next frame,
    whose command is still ['A'] and whose write would go through, nothing
    is sent. *)
Lemma C6_counterexample :
  exists g1 l1 g2 l2,
    link_up globals_connected = true /\
    loop_body script_thresholds (unplugged_frame 1)
      (globals_connected, initial_locals 0) = Ok (g1, l1) /\
    stdout g1 = stdout globals_connected ++ [ErrorSending "A"%char] /\
    last_arduino_state (initial_locals 0) = None /\
    last_arduino_state l1 = Some "A"%char /\
    last_arduino_state l1 <> last_arduino_state (initial_locals 0) /\
    loop_body script_thresholds (empty_frame 2) (g1, l1) = Ok (g2, l2) /\
    arduino_state (is_present l2) (is_focused l2) = "A"%char /\
    stdout g2 = stdout g1 /\
    received g2 = [].
Proof.
  do 4 eexists.
  split; [reflexivity|].
  split; [vm_compute; reflexivity|].
  split; [reflexivity|]. split; [reflexivity|]. split; [reflexivity|].
  split; [discriminate|].
  split; [vm_compute; reflexivity|].
  repeat split; reflexivity.
Qed.

(* ===================================================================== *)
(** * C9: a session without the actuator *)
(* ===================================================================== *)

(** C9.  When the connection attempt fails, [connect_to_arduino] returns
    false and leaves [arduino_connected] false; every [send_to_arduino]
    then returns without touching anything; a session of any length ends
    with the globals it started with, so the flag is false throughout and
    nothing is sent or printed; [last_arduino_state] still follows the
    command; and the locals, hence the counters, times, scores, logs and
    the summary, are those of the same session run with any other link. *)
Theorem C9_session_without_actuator (th : Thresholds) (t0 : Q)
  (g0 : Globals) (frames : list Frame) :
  snd (connect_to_arduino false g0) = false /\
  arduino_connected (fst (connect_to_arduino false g0)) = false /\
  (forall w c,
     send_to_arduino w c (fst (connect_to_arduino false g0))
     = fst (connect_to_arduino false g0)) /\
  exists l,
    run_detection th t0 (fst (connect_to_arduino false g0)) frames
      = Ok (fst (connect_to_arduino false g0), l) /\
    (frames <> [] ->
     last_arduino_state l
     = Some (arduino_state (is_present l) (is_focused l))) /\
    (forall g1, exists g1',
       run_detection th t0 g1 frames = Ok (g1', l)) /\
    (frames <> [] -> exists s, session_summary l = Ok s).
Proof.
  destruct (connect_failed g0) as (Hret & Hflag & Hdown).
  split; [exact Hret|]. split; [exact Hflag|].
  split; [intros w c; apply send_down; exact Hdown|].
  set (gd := fst (connect_to_arduino false g0)) in *.
  destruct (session_total th t0 gd frames) as (g & l & Hrun).
  pose proof Hrun as Hrun'. unfold run_detection in Hrun'.
  pose proof (loop_link_down _ _ _ _ _ _ Hdown Hrun') as Hg. subst g.
  exists l. split; [exact Hrun|].
  assert (Hlast : frames <> [] ->
            last_arduino_state l
            = Some (arduino_state (is_present l) (is_focused l)) /\
            exists sc, scores l = Some sc).
  { intros Hne. destruct frames as [|fr pre _] using rev_ind; [congruence|].
    destruct (loop_snoc_inv _ _ _ _ _ Hrun') as ([g1 l1] & _ & Hstep).
    pose proof (loop_body_inv _ _ _ _ _ _ Hstep)
      as (_ & _ & _ & _ & _ & _ & (sc & Hsc & _) & Hl & _).
    split; [exact Hl|eauto]. }
  split; [intros Hne; exact (proj1 (Hlast Hne))|]. split.
  - intros g1. unfold run_detection.
    destruct (loop_locals th frames gd g1 (initial_locals t0))
      as (a1 & a2 & l' & H1 & H2).
    rewrite H1 in Hrun'. inversion Hrun'; subst. eauto.
  - intros Hne. destruct (proj2 (Hlast Hne)) as [sc Hsc].
    unfold session_summary. rewrite Hsc. eauto.
Qed.

(* ===================================================================== *)
(** * Induction over a session, and the two tracks *)
(* ===================================================================== *)

(** A property of the frames processed so far and of the state they lead
    to: it holds throughout when it holds at set-up and every iteration
    keeps it. *)
Lemma session_ind (th : Thresholds) (t0 : Q) (g0 : Globals)
  (P : list Frame -> Globals -> Locals -> Prop) :
  P [] g0 (initial_locals t0) ->
  (forall pre fr g l g' l',
     run_detection th t0 g0 pre = Ok (g, l) ->
     P pre g l ->
     loop_body th fr (g, l) = Ok (g', l') ->
     P (pre ++ [fr]) g' l') ->
  forall frames g l,
    run_detection th t0 g0 frames = Ok (g, l) -> P frames g l.
Proof.
  intros H0 Hstep frames.
  induction frames as [|fr pre IH] using rev_ind; intros g l Hrun.
  - unfold run_detection in Hrun. simpl in Hrun. inversion Hrun; subst. exact H0.
  - unfold run_detection in Hrun.
    destruct (loop_snoc_inv _ _ _ _ _ Hrun) as ([g1 l1] & Hpre & Hs).
    apply (Hstep pre fr g1 l1 g l); [exact Hpre | | exact Hs].
    apply IH. exact Hpre.
Qed.

Lemma presence_track_step (th : Thresholds) (fr : Frame) (g g' : Globals)
  (l l' : Locals) :
  loop_body th fr (g, l) = Ok (g', l') ->
  presence_track l'
  = track_step (presence_threshold th) (face_detected fr) (current_time fr)
      (presence_track l).
Proof.
  intros H. apply loop_body_inv in H. destruct H as (_ & _ & Hp & _).
  unfold presence_track, track_step, presence_state_machine in *. simpl.
  destruct (face_detected fr);
    [ destruct ((presence_threshold th <=? S (presence_counter l))%nat
                && negb (is_present l));
      [destruct (current_absence l)|]
    | destruct ((presence_threshold th <=? S (absence_counter l))%nat
                && is_present l) ];
    injection Hp; intros E5 E4 E3 E2 E1; rewrite E1, E2, E3, E4, E5;
    reflexivity.
Qed.

Lemma focus_track_step (th : Thresholds) (fr : Frame) (g g' : Globals)
  (l l' : Locals) :
  loop_body th fr (g, l) = Ok (g', l') ->
  focus_track l'
  = track_step (focus_threshold th) (focus_detected fr) (current_time fr)
      (focus_track l).
Proof.
  intros H. apply loop_body_inv in H. destruct H as (_ & _ & _ & _ & Hf & _).
  unfold focus_track, track_step, focus_state_machine in *. simpl.
  destruct (focus_detected fr);
    [ destruct ((focus_threshold th <=? S (focus_counter l))%nat
                && negb (is_focused l));
      [destruct (current_distraction l)|]
    | destruct ((focus_threshold th <=? S (distraction_counter l))%nat
                && is_focused l) ];
    injection Hf; intros E5 E4 E3 E2 E1; rewrite E1, E2, E3, E4, E5;
    reflexivity.
Qed.

(** The counters of a track after one frame. *)
Lemma track_step_counters (T : nat) (raw : bool) (now : Q) (tr : Track) :
  track_up (track_step T raw now tr) = (if raw then S (track_up tr) else O) /\
  track_down (track_step T raw now tr) = (if raw then O else S (track_down tr)).
Proof.
  unfold track_step.
  destruct raw;
    [ destruct ((T <=? S (track_up tr))%nat && negb (track_stable tr));
      [destruct (track_pending tr)|]
    | destruct ((T <=? S (track_down tr))%nat && track_stable tr) ];
    simpl; auto.
Qed.

(** A run of [T] has been acted upon. *)
Lemma track_step_settled (T : nat) (raw : bool) (now : Q) (tr : Track) :
  (0 < T)%nat ->
  ((T <= track_up tr)%nat -> track_stable tr = true) ->
  ((T <= track_down tr)%nat -> track_stable tr = false) ->
  ((T <= track_up (track_step T raw now tr))%nat ->
   track_stable (track_step T raw now tr) = true) /\
  ((T <= track_down (track_step T raw now tr))%nat ->
   track_stable (track_step T raw now tr) = false).
Proof.
  intros HT Hu Hd. unfold track_step.
  destruct raw.
  - destruct (Nat.leb_spec T (S (track_up tr))) as [Hle|Hlt];
      destruct (track_stable tr) eqn:Es; simpl;
      try destruct (track_pending tr); simpl; rewrite ?Es;
      split; intros; try reflexivity; lia.
  - destruct (Nat.leb_spec T (S (track_down tr))) as [Hle|Hlt];
      destruct (track_stable tr) eqn:Es; simpl; rewrite ?Es;
      split; intros; try reflexivity; lia.
Qed.

(** The pending slot is filled only while the stable value is false, and
    nothing is logged before it has been filled once. *)
Lemma track_step_pending (T : nat) (raw : bool) (now : Q) (tr : Track) :
  (track_stable tr = true -> track_pending tr = None) ->
  (track_stable tr = false -> track_pending tr = None -> track_events tr = []) ->
  (track_stable (track_step T raw now tr) = true ->
   track_pending (track_step T raw now tr) = None) /\
  (track_stable (track_step T raw now tr) = false ->
   track_pending (track_step T raw now tr) = None ->
   track_events (track_step T raw now tr) = []).
Proof.
  intros H1 H2. unfold track_step.
  destruct raw;
    [ destruct ((T <=? S (track_up tr))%nat); destruct (track_stable tr) eqn:Es;
      simpl; [ | destruct (track_pending tr) eqn:Ep | | ]
    | destruct ((T <=? S (track_down tr))%nat); destruct (track_stable tr) eqn:Es ];
    simpl; rewrite ?Es; split; intros; auto; try discriminate.
Qed.

(** One more frame, and the budget of the log still fits. *)
Lemma track_step_budget (T N : nat) (raw : bool) (now : Q) (tr : Track) :
  log_budget T N tr -> log_budget T (S N) (track_step T raw now tr).
Proof.
  unfold log_budget, track_step.
  destruct raw.
  - destruct (Nat.leb_spec T (S (track_up tr))) as [Hle|Hlt];
      destruct (track_stable tr) eqn:Es; simpl;
      destruct (track_pending tr) eqn:Ep; simpl; rewrite ?Es, ?Ep;
      intros H; try rewrite length_app; simpl; try lia.
    + destruct H as [-> H]. simpl. lia.
    + destruct H as [-> H]. split; [reflexivity|lia].
  - destruct (Nat.leb_spec T (S (track_down tr))) as [Hle|Hlt];
      destruct (track_stable tr) eqn:Es; simpl;
      destruct (track_pending tr) eqn:Ep; simpl; rewrite ?Es, ?Ep;
      intros H; try lia.
    + destruct H as [-> H]. split; [reflexivity|lia].
    + destruct H as [-> H]. split; [reflexivity|lia].
Qed.

Lemma trailing_run_snoc (b r : bool) (raws : list bool) :
  trailing_run b (raws ++ [r])
  = if Bool.eqb r b then S (trailing_run b raws) else O.
Proof.
  unfold trailing_run. rewrite rev_app_distr. reflexivity.
Qed.

Lemma trailing_run_block (b : bool) (pre block : list bool) :
  Forall (fun r => r = b) block ->
  (length block <= trailing_run b (pre ++ block))%nat.
Proof.
  induction block as [|r block IH] using rev_ind; intros Hall; [simpl; lia|].
  apply Forall_app in Hall. destruct Hall as [Hall Hr].
  inversion Hr; subst.
  rewrite app_assoc, trailing_run_snoc, Bool.eqb_reflx, length_app.
  simpl. specialize (IH Hall). lia.
Qed.

(* ===================================================================== *)
(** * The clock, the counters and the logs over a session *)
(* ===================================================================== *)



Lemma session_counters (th : Thresholds) (t0 : Q) (g0 g : Globals)
  (frames : list Frame) (l : Locals) :
  run_detection th t0 g0 frames = Ok (g, l) ->
  presence_counter l = trailing_run true (map face_detected frames) /\
  absence_counter l = trailing_run false (map face_detected frames) /\
  focus_counter l = trailing_run true (map focus_detected frames) /\
  distraction_counter l = trailing_run false (map focus_detected frames).
Proof.
  revert frames g l.
  apply (session_ind th t0 g0
           (fun frames _ l =>
              presence_counter l = trailing_run true (map face_detected frames) /\
              absence_counter l = trailing_run false (map face_detected frames) /\
              focus_counter l = trailing_run true (map focus_detected frames) /\
              distraction_counter l
              = trailing_run false (map focus_detected frames))).
  - repeat split; reflexivity.
  - intros pre fr g l g' l' _ (H1 & H2 & H3 & H4) H.
    pose proof (f_equal track_up (presence_track_step _ _ _ _ _ _ H)) as P1.
    pose proof (f_equal track_down (presence_track_step _ _ _ _ _ _ H)) as P2.
    pose proof (f_equal track_up (focus_track_step _ _ _ _ _ _ H)) as F1.
    pose proof (f_equal track_down (focus_track_step _ _ _ _ _ _ H)) as F2.
    rewrite (proj1 (track_step_counters _ _ _ _)) in P1.
    rewrite (proj1 (track_step_counters _ _ _ _)) in F1.
    rewrite (proj2 (track_step_counters _ _ _ _)) in P2.
    rewrite (proj2 (track_step_counters _ _ _ _)) in F2.
    simpl in P1, P2, F1, F2.
    rewrite !map_app. simpl. rewrite !trailing_run_snoc.
    rewrite P1, P2, F1, F2, <- H1, <- H2, <- H3, <- H4.
    destruct (face_detected fr), (focus_detected fr); simpl; auto.
Qed.

Lemma session_settled (th : Thresholds) (t0 : Q) (g0 g : Globals)
  (frames : list Frame) (l : Locals) :
  (0 < presence_threshold th)%nat ->
  (0 < focus_threshold th)%nat ->
  run_detection th t0 g0 frames = Ok (g, l) ->
  ((presence_threshold th <= presence_counter l)%nat -> is_present l = true) /\
  ((presence_threshold th <= absence_counter l)%nat -> is_present l = false) /\
  ((focus_threshold th <= focus_counter l)%nat -> is_focused l = true) /\
  ((focus_threshold th <= distraction_counter l)%nat -> is_focused l = false).
Proof.
  intros HTp HTf. revert frames g l.
  apply (session_ind th t0 g0
           (fun _ _ l =>
              ((presence_threshold th <= presence_counter l)%nat ->
               is_present l = true) /\
              ((presence_threshold th <= absence_counter l)%nat ->
               is_present l = false) /\
              ((focus_threshold th <= focus_counter l)%nat ->
               is_focused l = true) /\
              ((focus_threshold th <= distraction_counter l)%nat ->
               is_focused l = false))).
  - simpl. repeat split; intros; try reflexivity; lia.
  - intros pre fr g l g' l' _ (H1 & H2 & H3 & H4) H.
    pose proof (track_step_settled (presence_threshold th) (face_detected fr)
                  (current_time fr) (presence_track l) HTp H1 H2) as [P1 P2].
    pose proof (track_step_settled (focus_threshold th) (focus_detected fr)
                  (current_time fr) (focus_track l) HTf H3 H4) as [F1 F2].
    rewrite <- (presence_track_step _ _ _ _ _ _ H) in P1, P2.
    rewrite <- (focus_track_step _ _ _ _ _ _ H) in F1, F2.
    auto.
Qed.

Lemma session_pending (th : Thresholds) (t0 : Q) (g0 g : Globals)
  (frames : list Frame) (l : Locals) :
  run_detection th t0 g0 frames = Ok (g, l) ->
  (is_present l = true -> current_absence l = None) /\
  (is_present l = false -> current_absence l = None -> absence_events l = []) /\
  (is_focused l = true -> current_distraction l = None) /\
  (is_focused l = false -> current_distraction l = None ->
   distraction_events l = []).
Proof.
  revert frames g l.
  apply (session_ind th t0 g0
           (fun _ _ l =>
              (is_present l = true -> current_absence l = None) /\
              (is_present l = false -> current_absence l = None ->
               absence_events l = []) /\
              (is_focused l = true -> current_distraction l = None) /\
              (is_focused l = false -> current_distraction l = None ->
               distraction_events l = []))).
  - simpl. repeat split; intros; reflexivity.
  - intros pre fr g l g' l' _ (H1 & H2 & H3 & H4) H.
    pose proof (track_step_pending (presence_threshold th) (face_detected fr)
                  (current_time fr) (presence_track l) H1 H2) as [P1 P2].
    pose proof (track_step_pending (focus_threshold th) (focus_detected fr)
                  (current_time fr) (focus_track l) H3 H4) as [F1 F2].
    rewrite <- (presence_track_step _ _ _ _ _ _ H) in P1, P2.
    rewrite <- (focus_track_step _ _ _ _ _ _ H) in F1, F2.
    auto.
Qed.

Lemma session_budget (th : Thresholds) (t0 : Q) (g0 g : Globals)
  (frames : list Frame) (l : Locals) :
  run_detection th t0 g0 frames = Ok (g, l) ->
  log_budget (presence_threshold th) (length frames) (presence_track l) /\
  log_budget (focus_threshold th) (length frames) (focus_track l).
Proof.
  revert frames g l.
  apply (session_ind th t0 g0
           (fun frames _ l =>
              log_budget (presence_threshold th) (length frames) (presence_track l) /\
              log_budget (focus_threshold th) (length frames) (focus_track l))).
  - unfold log_budget. simpl. auto.
  - intros pre fr g l g' l' _ [HP HF] H.
    rewrite length_app. simpl. rewrite Nat.add_1_r.
    rewrite (presence_track_step _ _ _ _ _ _ H), (focus_track_step _ _ _ _ _ _ H).
    split; apply track_step_budget; assumption.
Qed.

Lemma budget_bound (T N : nat) (tr : Track) :
  log_budget T N tr ->
  track_events tr <> [] ->
  (length (track_events tr) * (2 * T) + T <= N)%nat.
Proof.
  unfold log_budget.
  destruct (track_stable tr); [lia|].
  destruct (track_pending tr); [lia|].
  intros [-> _] Hne. congruence.
Qed.

(* ===================================================================== *)
(** * Further properties of the debounced axes *)
(* ===================================================================== *)


(** The four counters are the lengths of the runs at the end of the
    history: [presence_counter] counts the frames with a face since the
    last frame without one, [absence_counter] the frames without a face
    since the last one with a face, and likewise for the raw focus signal.
    They are not capped by the thresholds, and of each pair at least one
    is 0. *)
Theorem counters_are_trailing_runs (th : Thresholds) (t0 : Q)
  (g0 : Globals) (frames : list Frame) :
  exists g l,
    run_detection th t0 g0 frames = Ok (g, l) /\
    presence_counter l = trailing_run true (map face_detected frames) /\
    absence_counter l = trailing_run false (map face_detected frames) /\
    focus_counter l = trailing_run true (map focus_detected frames) /\
    distraction_counter l = trailing_run false (map focus_detected frames) /\
    (presence_counter l = O \/ absence_counter l = O) /\
    (focus_counter l = O \/ distraction_counter l = O).
Proof.
  destruct (session_total th t0 g0 frames) as (g & l & Hrun).
  exists g, l. split; [exact Hrun|].
  destruct (session_counters _ _ _ _ _ _ Hrun) as (H1 & H2 & H3 & H4).
  repeat (split; [assumption|]).
  rewrite H1, H2, H3, H4. unfold trailing_run.
  split.
  - destruct (rev (map face_detected frames)) as [|[|] r]; simpl; auto.
  - destruct (rev (map focus_detected frames)) as [|[|] r]; simpl; auto.
Qed.

(** Convergence: once the last [T] frames or more all carry the same raw
    value, the stable value is that value, whatever came before. *)
Theorem stable_value_follows_long_runs (th : Thresholds) (t0 : Q)
  (g0 : Globals) (pre block : list Frame) (b : bool) :
  (0 < presence_threshold th)%nat ->
  (0 < focus_threshold th)%nat ->
  exists g l,
    run_detection th t0 g0 (pre ++ block) = Ok (g, l) /\
    ((presence_threshold th <= length block)%nat ->
     Forall (fun fr => face_detected fr = b) block ->
     is_present l = b) /\
    ((focus_threshold th <= length block)%nat ->
     Forall (fun fr => focus_detected fr = b) block ->
     is_focused l = b).
Proof.
  intros HTp HTf.
  destruct (session_total th t0 g0 (pre ++ block)) as (g & l & Hrun).
  exists g, l. split; [exact Hrun|].
  destruct (session_counters _ _ _ _ _ _ Hrun) as (C1 & C2 & C3 & C4).
  destruct (session_settled _ _ _ _ _ _ HTp HTf Hrun) as (S1 & S2 & S3 & S4).
  rewrite !map_app in *.
  split; intros Hlen Hall.
  - assert (Hrun_len :
      (length block <= trailing_run b (map face_detected pre ++ map face_detected block))%nat).
    { rewrite <- (length_map face_detected block). apply trailing_run_block.
      rewrite Forall_map. exact Hall. }
    destruct b; [apply S1; rewrite C1 | apply S2; rewrite C2]; lia.
  - assert (Hrun_len :
      (length block <= trailing_run b (map focus_detected pre ++ map focus_detected block))%nat).
    { rewrite <- (length_map focus_detected block). apply trailing_run_block.
      rewrite Forall_map. exact Hall. }
    destruct b; [apply S3; rewrite C3 | apply S4; rewrite C4]; lia.
Qed.

(** The script's thresholds; the user leaves for ten frames after thirty
    frames of anything. *)
Lemma stable_value_follows_long_runs_witness :
  (0 < presence_threshold script_thresholds)%nat /\
  (0 < focus_threshold script_thresholds)%nat /\
  exists g l,
    run_detection script_thresholds 0 globals_connected
      (running_clock_frames ++ map empty_frame (repeat 31 10)) = Ok (g, l) /\
    is_present l = false.
Proof.
  split; [simpl; lia|]. split; [simpl; lia|].
  destruct (stable_value_follows_long_runs script_thresholds 0 globals_connected
              running_clock_frames (map empty_frame (repeat 31 10)) false
              ltac:(simpl; lia) ltac:(simpl; lia))
    as (g & l & Hrun & Hp & _).
  exists g, l. split; [exact Hrun|].
  apply Hp; [simpl; lia|]. repeat constructor.
Defined.

(** A pending interval exists only while the stable value is false: when
    [is_present] is true [current_absence] is [None], and while
    [is_present] is false an empty [current_absence] means that nothing has
    been logged yet; likewise for [is_focused] and [current_distraction]. *)
Theorem pending_only_while_away (th : Thresholds) (t0 : Q)
  (g0 : Globals) (frames : list Frame) :
  exists g l,
    run_detection th t0 g0 frames = Ok (g, l) /\
    (is_present l = true -> current_absence l = None) /\
    (is_present l = false -> current_absence l = None ->
     absence_events l = []) /\
    (is_focused l = true -> current_distraction l = None) /\
    (is_focused l = false -> current_distraction l = None ->
     distraction_events l = []).
Proof.
  destruct (session_total th t0 g0 frames) as (g & l & Hrun).
  exists g, l. split; [exact Hrun|].
  exact (session_pending _ _ _ _ _ _ Hrun).
Qed.

(** The debounce bounds the rate of the log: [k >= 1] logged absences need
    at least [(2 * k + 1) * presence_threshold] frames, and [k >= 1] logged
    distractions at least [(2 * k + 1) * focus_threshold] frames. *)
Theorem logged_events_need_frames (th : Thresholds) (t0 : Q)
  (g0 : Globals) (frames : list Frame) :
  exists g l,
    run_detection th t0 g0 frames = Ok (g, l) /\
    (absence_events l <> [] ->
     (length (absence_events l) * (2 * presence_threshold th)
      + presence_threshold th <= length frames)%nat) /\
    (distraction_events l <> [] ->
     (length (distraction_events l) * (2 * focus_threshold th)
      + focus_threshold th <= length frames)%nat).
Proof.
  destruct (session_total th t0 g0 frames) as (g & l & Hrun).
  exists g, l. split; [exact Hrun|].
  destruct (session_budget _ _ _ _ _ _ Hrun) as [HP HF].
  split; intros Hne.
  - exact (budget_bound _ _ _ HP Hne).
  - exact (budget_bound _ _ _ HF Hne).
Qed.

(* ===================================================================== *)
(** * The logged intervals in time *)
(* ===================================================================== *)




Lemma chronological_last_end (lo : Q) (events : list Event) :
  chronological lo events -> lo <= last_end lo events.
Proof.
  revert lo. induction events as [|x events IH]; intros lo; simpl; [lra|].
  intros (H1 & H2 & H3). specialize (IH _ H3). lra.
Qed.





(* ===================================================================== *)
(** * Further properties of the scores and of the summary *)
(* ===================================================================== *)



(** Printing the summary reads the scores of the last iteration: it raises
    [NameError] exactly when no frame was processed; otherwise it goes
    through, the counts are the lengths of the two logs, and the three
    percentages are those of the three times printed next to them. *)
Theorem summary_needs_a_frame (th : Thresholds) (t0 : Q) (g0 : Globals)
  (frames : list Frame) :
  exists g l,
    run_detection th t0 g0 frames = Ok (g, l) /\
    (session_summary l = Raise NameError <-> frames = []) /\
    (frames <> [] ->
     exists s,
       session_summary l = Ok s /\
       summary_total_time s = total_time l /\
       summary_present_time s = present_time l /\
       summary_focused_time s = focused_time l /\
       summary_absence_count s = length (absence_events l) /\
       summary_distraction_count s = length (distraction_events l) /\
       compute_scores (summary_total_time s) (summary_present_time s)
         (summary_focused_time s)
       = Ok (mkScores (summary_presence_score s) (summary_focus_score s)
               (summary_overall_score s))).
Proof.
  destruct (session_total th t0 g0 frames) as (g & l & Hrun).
  exists g, l. split; [exact Hrun|].
  assert (Hne : frames <> [] -> exists sc, scores l = Some sc).
  { intros Hn. destruct frames as [|fr pre _] using rev_ind; [congruence|].
    unfold run_detection in Hrun.
    destruct (loop_snoc_inv _ _ _ _ _ Hrun) as ([g1 l1] & _ & Hstep).
    pose proof (loop_body_inv _ _ _ _ _ _ Hstep)
      as (_ & _ & _ & _ & _ & _ & (sc & Hsc & _) & _).
    eauto. }
  split; [split|].
  - intros Hraise. destruct frames as [|fr rest]; [reflexivity|].
    destruct (Hne ltac:(discriminate)) as [sc Hsc].
    unfold session_summary in Hraise. rewrite Hsc in Hraise. discriminate.
  - intros ->. unfold run_detection in Hrun. simpl in Hrun.
    inversion Hrun; subst. reflexivity.
  - intros Hn. destruct (Hne Hn) as [sc Hsc].
    pose proof (session_scores _ _ _ _ _ _ _ Hrun Hsc) as Hc.
    unfold session_summary. rewrite Hsc. eexists. split; [reflexivity|].
    simpl. repeat split. rewrite Hc. destruct sc; reflexivity.
Qed.

(* ===================================================================== *)
(** * Further properties of the actuator link *)
(* ===================================================================== *)

Lemma arduino_state_command (p f : bool) : is_command (arduino_state p f).
Proof.
  unfold is_command, arduino_state. destruct p, f; simpl; auto.
Qed.

(** What one call of [send_to_arduino] leaves behind. *)
Lemma send_effect (w : bool) (c : ascii) (g : Globals) :
  arduino_connected (send_to_arduino w c g) = arduino_connected g /\
  link_up (send_to_arduino w c g) = link_up g /\
  exists out bytes,
    stdout (send_to_arduino w c g) = stdout g ++ out /\
    received (send_to_arduino w c g) = received g ++ bytes /\
    (length bytes <= length (attempts out) <= 1)%nat /\
    Forall (eq c) (attempts out) /\
    Forall (eq c) bytes.
Proof.
  destruct (link_up g) eqn:Hup.
  - destruct (send_up w c g Hup) as (Hs & _ & Hr & Hu).
    split.
    + unfold send_to_arduino, Serial_write.
      destruct (arduino g); [|reflexivity].
      destruct (arduino_connected g) eqn:Ec; [|exact Ec].
      destruct w; reflexivity.
    + split; [exact Hu|].
      exists [if w then Sent c else ErrorSending c], (if w then [c] else []).
      rewrite Hs, Hr. destruct w; simpl; rewrite ?app_nil_r;
        repeat split; auto.
  - rewrite (send_down w c g Hup). split; [reflexivity|]. split; [exact Hup|].
    exists [], []. rewrite !app_nil_r. simpl. repeat split; auto.
Qed.

(** What a whole loop leaves behind on the link. *)
Lemma loop_traffic (th : Thresholds) (frames : list Frame) (g g' : Globals)
  (l l' : Locals) :
  loop th frames (g, l) = Ok (g', l') ->
  arduino_connected g' = arduino_connected g /\
  link_up g' = link_up g /\
  exists out bytes,
    stdout g' = stdout g ++ out /\
    received g' = received g ++ bytes /\
    (length bytes <= length (attempts out) <= length frames)%nat /\
    Forall is_command (attempts out) /\
    Forall is_command bytes.
Proof.
  revert g l. induction frames as [|fr rest IH]; intros g l; simpl.
  - intros H. inversion H; subst. split; [reflexivity|]. split; [reflexivity|].
    exists [], []. rewrite !app_nil_r. simpl. repeat split; auto.
  - destruct (loop_body th fr (g, l)) as [[g1 l1]|e] eqn:E; simpl; [|discriminate].
    intros H. destruct (IH _ _ H) as (Hc & Hu & out2 & b2 & Hs2 & Hr2 & Hlen2 & Ha2 & Hb2).
    pose proof (loop_body_inv _ _ _ _ _ _ E)
      as (_ & _ & _ & _ & _ & _ & _ & _ & Hg).
    assert (H1 : arduino_connected g1 = arduino_connected g /\
                 link_up g1 = link_up g /\
                 exists out bytes,
                   stdout g1 = stdout g ++ out /\
                   received g1 = received g ++ bytes /\
                   (length bytes <= length (attempts out) <= 1)%nat /\
                   Forall is_command (attempts out) /\
                   Forall is_command bytes).
    { rewrite Hg. destruct (differs _ _).
      - destruct (send_effect (write_ok fr)
                    (arduino_state (is_present l1) (is_focused l1)) g)
          as (A & B & out & bytes & C & D & F & G1 & G2).
        split; [exact A|]. split; [exact B|]. exists out, bytes.
        repeat split; try assumption; try lia.
        + eapply Forall_impl; [|exact G1]. intros a <-. apply arduino_state_command.
        + eapply Forall_impl; [|exact G2]. intros a <-. apply arduino_state_command.
      - split; [reflexivity|]. split; [reflexivity|]. exists [], [].
        rewrite !app_nil_r. simpl. repeat split; auto. }
    destruct H1 as (Hc1 & Hu1 & out1 & b1 & Hs1 & Hr1 & Hlen1 & Ha1 & Hb1).
    split; [congruence|]. split; [congruence|].
    exists (out1 ++ out2), (b1 ++ b2).
    rewrite Hs2, Hs1, Hr2, Hr1, !app_assoc, attempts_app, !length_app.
    repeat split; try lia; apply Forall_app; auto.
Qed.

(** On a link that is up the last attempt is [last_arduino_state]. *)
Lemma last_attempt (th : Thresholds) (t0 : Q) (g0 g : Globals)
  (frames : list Frame) (l : Locals) :
  link_up g0 = true ->
  attempts (stdout g0) = [] ->
  run_detection th t0 g0 frames = Ok (g, l) ->
  hd_error (rev (attempts (stdout g))) = last_arduino_state l.
Proof.
  intros Hup H0 Hrun.
  refine (proj2 (session_ind th t0 g0
            (fun _ g l => link_up g = true /\
               hd_error (rev (attempts (stdout g))) = last_arduino_state l)
            _ _ frames g l Hrun)).
  - rewrite H0. simpl. auto.
  - clear. intros pre fr g l g' l' _ [Hup HI] H.
    destruct (attempts_step _ _ _ _ _ _ H Hup) as (Hup' & Ha & _).
    pose proof (loop_body_inv _ _ _ _ _ _ H)
      as (_ & _ & _ & _ & _ & _ & _ & Hl & _).
    split; [exact Hup'|]. rewrite Ha, Hl.
    destruct (differs _ _) eqn:Ed.
    + rewrite rev_app_distr. reflexivity.
    + rewrite app_nil_r, HI. apply differs_false in Ed. exact Ed.
Qed.

(** Writes that raise do not take the link down: after any session
    [arduino_connected] and the test of line 52 are what they were when
    the session began. *)
Theorem link_survives_failed_writes (th : Thresholds) (t0 : Q)
  (g0 : Globals) (frames : list Frame) :
  exists g l,
    run_detection th t0 g0 frames = Ok (g, l) /\
    arduino_connected g = arduino_connected g0 /\
    link_up g = link_up g0.
Proof.
  destruct (session_total th t0 g0 frames) as (g & l & Hrun).
  exists g, l. split; [exact Hrun|].
  unfold run_detection in Hrun.
  destruct (loop_traffic _ _ _ _ _ _ Hrun) as (Hc & Hu & _).
  auto.
Qed.

(** A session only adds to what was printed and to what the device
    received; it makes at most one attempt per frame, the device receives
    no more bytes than there were attempts, and every code attempted or
    received is one of A, D and F. *)
Theorem at_most_one_command_per_frame (th : Thresholds) (t0 : Q)
  (g0 : Globals) (frames : list Frame) :
  exists g l out bytes,
    run_detection th t0 g0 frames = Ok (g, l) /\
    stdout g = stdout g0 ++ out /\
    received g = received g0 ++ bytes /\
    (length bytes <= length (attempts out))%nat /\
    (length (attempts out) <= length frames)%nat /\
    Forall is_command (attempts out) /\
    Forall is_command bytes.
Proof.
  destruct (session_total th t0 g0 frames) as (g & l & Hrun).
  pose proof Hrun as Hrun'. unfold run_detection in Hrun'.
  destruct (loop_traffic _ _ _ _ _ _ Hrun')
    as (_ & _ & out & bytes & Hs & Hr & Hlen & Ha & Hb).
  exists g, l, out, bytes. repeat split; try assumption; lia.
Qed.

(** On a link that came up, after any frames at all the last code
    attempted is the command of the current state; when every write went
    through, it is also the last byte the device received. *)
Theorem last_command_is_current (th : Thresholds) (t0 : Q)
  (fr : Frame) (rest : list Frame) :
  exists g l,
    run_detection th t0 (fst (connect_to_arduino true module_globals))
      (fr :: rest) = Ok (g, l) /\
    hd_error (rev (attempts (stdout g)))
    = Some (arduino_state (is_present l) (is_focused l)) /\
    (Forall (fun fr => write_ok fr = true) (fr :: rest) ->
     hd_error (rev (received g))
     = Some (arduino_state (is_present l) (is_focused l))).
Proof.
  set (g0 := fst (connect_to_arduino true module_globals)).
  destruct (session_total th t0 g0 (fr :: rest)) as (g & l & Hrun).
  exists g, l. split; [exact Hrun|].
  assert (Hlast : last_arduino_state l
                  = Some (arduino_state (is_present l) (is_focused l))).
  { pose proof Hrun as Hrun'. unfold run_detection in Hrun'.
    destruct (exists_last (l := fr :: rest) ltac:(discriminate)) as (pre & x & E).
    rewrite E in Hrun'.
    destruct (loop_snoc_inv _ _ _ _ _ Hrun') as ([g1 l1] & _ & Hstep).
    pose proof (loop_body_inv _ _ _ _ _ _ Hstep)
      as (_ & _ & _ & _ & _ & _ & _ & Hl & _).
    exact Hl. }
  pose proof (last_attempt th t0 g0 g (fr :: rest) l eq_refl eq_refl Hrun) as Ha.
  rewrite Hlast in Ha. split; [exact Ha|].
  intros Hok.
  rewrite (received_all th t0 g0 g (fr :: rest) l eq_refl Hok Hrun). exact Ha.
Qed.

(** With a presence threshold above 1, every session on a link that came
    up begins by attempting A, whatever the camera sees. *)
Theorem first_command_is_absent (th : Thresholds) (t0 : Q)
  (fr : Frame) (rest : list Frame) :
  (1 < presence_threshold th)%nat ->
  exists g l,
    run_detection th t0 (fst (connect_to_arduino true module_globals))
      (fr :: rest) = Ok (g, l) /\
    hd_error (attempts (stdout g)) = Some "A"%char.
Proof.
  intros HT.
  set (g0 := fst (connect_to_arduino true module_globals)).
  destruct (session_total th t0 g0 (fr :: rest)) as (g & l & Hrun).
  exists g, l. split; [exact Hrun|].
  unfold run_detection in Hrun. simpl in Hrun.
  destruct (loop_body th fr (g0, initial_locals t0)) as [[g1 l1]|e] eqn:E;
    simpl in Hrun; [|discriminate].
  assert (Hfirst : run_detection th t0 g0 [fr] = Ok (g1, l1))
    by (unfold run_detection; simpl; rewrite E; reflexivity).
  destruct (first_frame _ _ _ _ _ _ Hfirst) as (_ & Hp & _).
  destruct (Hp HT) as [Hp0 _].
  destruct (attempts_step _ _ _ _ _ _ E eq_refl) as (_ & Ha & _).
  rewrite Hp0 in Ha. simpl in Ha.
  destruct (loop_traffic _ _ _ _ _ _ Hrun) as (_ & _ & out & _ & Hs & _).
  rewrite Hs, attempts_app, Ha. reflexivity.
Qed.

(** The script's thresholds, Scenario A. *)
Lemma first_command_is_absent_witness :
  (1 < presence_threshold script_thresholds)%nat /\
  exists g l,
    run_detection script_thresholds 0
      (fst (connect_to_arduino true module_globals))
      (focused_frame 1 :: frames_from 2 (repeat true 8)) = Ok (g, l) /\
    hd_error (attempts (stdout g)) = Some "A"%char.
Proof.
  split; [simpl; lia|].
  exact (first_command_is_absent script_thresholds 0 (focused_frame 1)
           (frames_from 2 (repeat true 8)) ltac:(simpl; lia)).
Defined.

(* ===================================================================== *)
(** * The threshold tests and the indicator *)
(* ===================================================================== *)

Lemma Qlt_bool_true (a b : Q) : Qlt_bool a b = true <-> a < b.
Proof.
  unfold Qlt_bool. rewrite negb_true_iff. split; intros H.
  - apply Qnot_le_lt. intros Hle. apply Qle_bool_iff in Hle. congruence.
  - destruct (Qle_bool b a) eqn:E; [|reflexivity].
    apply Qle_bool_iff in E. lra.
Qed.

Lemma is_looking_at_screen_spec (x y : Q) :
  is_looking_at_screen x y = true
  <-> (- (0.14) < x < 0.14) /\ (- (0.14) < y < 0.14).
Proof.
  unfold is_looking_at_screen. cbv zeta.
  rewrite andb_true_iff, !Qlt_bool_true, !Qabs_Qlt_condition. tauto.
Qed.

Lemma are_eyes_open_spec (left_ear right_ear : Q) :
  are_eyes_open left_ear right_ear = true
  <-> 0.2 < left_ear /\ 0.2 < right_ear.
Proof.
  unfold are_eyes_open. cbv zeta.
  rewrite andb_true_iff, !Qgt_bool_true. tauto.
Qed.

(** The raw focus signal of a frame whose face was measured: it is raised
    exactly when both eye aspect ratios are above 0.2 and the gaze lies
    strictly inside the square of half-width 0.14 around the centre.  So it
    does not change when the two eyes are swapped or the gaze is mirrored,
    and it is kept when the eyes open further and the gaze moves towards
    the centre. *)
Theorem focus_signal_is_a_box (t left_ear right_ear gaze_x gaze_y : Q)
  (w : bool) :
  let signal l r x y :=
    focus_detected (mkFrame t (Some (measured_face l r x y)) w) in
  (signal left_ear right_ear gaze_x gaze_y = true
   <-> 0.2 < left_ear /\ 0.2 < right_ear /\
       - (0.14) < gaze_x < 0.14 /\ - (0.14) < gaze_y < 0.14) /\
  signal right_ear left_ear gaze_x gaze_y
  = signal left_ear right_ear gaze_x gaze_y /\
  signal left_ear right_ear (- gaze_x) gaze_y
  = signal left_ear right_ear gaze_x gaze_y /\
  signal left_ear right_ear gaze_x (- gaze_y)
  = signal left_ear right_ear gaze_x gaze_y /\
  (forall l' r' x' y',
     signal left_ear right_ear gaze_x gaze_y = true ->
     left_ear <= l' -> right_ear <= r' ->
     Qabs x' <= Qabs gaze_x -> Qabs y' <= Qabs gaze_y ->
     signal l' r' x' y' = true).
Proof.
  cbv zeta.
  assert (Hspec : forall l r x y,
            focus_detected (mkFrame t (Some (measured_face l r x y)) w) = true
            <-> 0.2 < l /\ 0.2 < r /\
                - (0.14) < x < 0.14 /\ - (0.14) < y < 0.14).
  { intros l r x y. unfold focus_detected, detect, measured_face. simpl.
    rewrite andb_true_iff, are_eyes_open_spec, is_looking_at_screen_spec.
    tauto. }
  split; [apply Hspec|].
  split; [apply Bool.eq_iff_eq_true; rewrite !Hspec; tauto|].
  split; [apply Bool.eq_iff_eq_true; rewrite !Hspec; split; intros; lra|].
  split; [apply Bool.eq_iff_eq_true; rewrite !Hspec; split; intros; lra|].
  intros l' r' x' y' H Hl Hr Hx Hy.
  apply Hspec in H. apply Hspec.
  destruct H as (H1 & H2 & H3 & H4).
  apply Qabs_Qlt_condition in H3. apply Qabs_Qlt_condition in H4.
  split; [lra|]. split; [lra|].
  split; apply Qabs_Qlt_condition; lra.
Qed.

(** After every iteration the label drawn in the corner names the command
    held in [last_arduino_state]: its first letter is that code; and the
    indicator is red exactly when [is_present] is false. *)
Theorem indicator_names_the_command (th : Thresholds) (fr : Frame)
  (g : Globals) (l : Locals) :
  exists g' l',
    loop_body th fr (g, l) = Ok (g', l') /\
    String.get 0 (snd (status_indicator (is_present l') (is_focused l')))
    = last_arduino_state l' /\
    (fst (status_indicator (is_present l') (is_focused l')) = (0, 0, 255)%nat
     <-> is_present l' = false).
Proof.
  destruct (loop_body_total th fr (g, l)) as [[g' l'] H].
  exists g', l'. split; [exact H|].
  pose proof (loop_body_inv _ _ _ _ _ _ H)
    as (_ & _ & _ & _ & _ & _ & _ & Hl & _).
  rewrite Hl. unfold status_indicator, arduino_state.
  destruct (is_present l'), (is_focused l'); simpl;
    (split; [reflexivity|split; intros E; try reflexivity; discriminate]).
Qed.


(* ===================================================================== *)
(** * Leaving the loop *)
(* ===================================================================== *)

(** A failed read ends the session with the frames read before it; the key
    [q] ends it with the frame on which it was read included; what the
    camera would have delivered afterwards plays no part. *)
Theorem loop_is_left_at_once (th : Thresholds) (frames : list Frame)
  (fr : Frame) (rest : list Capture) (st : Globals * Locals) :
  capture_loop th (map keep_going frames) st = loop th frames st /\
  capture_loop th (map keep_going frames ++ GrabFailed :: rest) st
  = loop th frames st /\
  capture_loop th (map keep_going frames ++ Grabbed fr true :: rest) st
  = loop th (frames ++ [fr]) st.
Proof.
  revert st. induction frames as [|x frames IH]; intros st; simpl.
  - split; [reflexivity|]. split; [reflexivity|].
    destruct (loop_body th fr st); reflexivity.
  - destruct (loop_body th x st) as [st1|e]; simpl; [apply IH|auto].
Qed.



(* ===================================================================== *)
(** * Connecting, then sending *)
(* ===================================================================== *)

(** [connect_to_arduino] returns what it leaves in [arduino_connected], and
    that is also what the test of line 52 will find.  After a connection
    that succeeded, a send prints one line and the fresh port has received
    the byte exactly when the write went through; after one that failed, a
    send changes nothing. *)
Theorem connect_then_send (port_ok w : bool) (c : ascii) (g0 : Globals) :
  let g := fst (connect_to_arduino port_ok g0) in
  snd (connect_to_arduino port_ok g0) = port_ok /\
  arduino_connected g = port_ok /\
  link_up g = port_ok /\
  (port_ok = true ->
   received (send_to_arduino w c g) = (if w then [c] else []) /\
   stdout (send_to_arduino w c g)
   = stdout g ++ [if w then Sent c else ErrorSending c]) /\
  (port_ok = false -> send_to_arduino w c g = g).
Proof.
  cbv zeta. destruct port_ok.
  - unfold connect_to_arduino. simpl.
    split; [reflexivity|]. split; [reflexivity|]. split; [reflexivity|].
    split; [intros _; destruct w; split; reflexivity | discriminate].
  - destruct (connect_failed g0) as (H1 & H2 & H3).
    split; [exact H1|]. split; [exact H2|]. split; [exact H3|].
    split; [discriminate|]. intros _. apply send_down. exact H3.
Qed.

(* ===================================================================== *)
(** * The one-image classifier *)
(* ===================================================================== *)

(** The exit status of the one-image classifier is 1 only when it is not
    given exactly one argument, and then no image is read.  Given one
    argument it prints one dictionary and exits with 0, also when the
    image cannot be read: that dictionary then holds an error and no
    status.  For an image that can be read the status is [attentive]
    exactly when at least one face is found and [not_attentive] exactly
    when none is. *)
Theorem classifier_exit_status (Image : Type)
  (imread : string -> option Image) (count_faces : Image -> nat)
  (argv : list string) :
  (length argv <> 2%nat ->
   Backend.main Image imread count_faces argv
   = ([[("error"%string, Backend.JString "No image provided")]], 1%nat)) /\
  (forall prog image_path,
     argv = [prog; image_path] ->
     exists d,
       Backend.main Image imread count_faces argv = ([d], 0%nat) /\
       (imread image_path = None ->
        Backend.lookup "error" d
        = Some (Backend.JString "Could not read image") /\
        Backend.lookup "status" d = None) /\
       (forall image,
          imread image_path = Some image ->
          Backend.lookup "error" d = None /\
          (Backend.lookup "status" d = Some (Backend.JString "attentive")
           <-> (0 < count_faces image)%nat) /\
          (Backend.lookup "status" d = Some (Backend.JString "not_attentive")
           <-> count_faces image = 0%nat))).
Proof.
  split.
  - intros Hlen. unfold Backend.main.
    destruct (Nat.eqb_spec (length argv) 2); [contradiction|reflexivity].
  - intros prog image_path ->. unfold Backend.main, Backend.classify_attention.
    simpl. eexists. split; [reflexivity|].
    destruct (imread image_path) as [image|].
    + split; [discriminate|]. intros image' E. inversion E; subst image'.
      destruct (Nat.ltb_spec 0 (count_faces image)); simpl;
        (split; [reflexivity|]); split; split; intros H';
        try reflexivity; try discriminate; lia.
    + split; [intros _; split; reflexivity|]. discriminate.
Qed.
